(** * qtpynodeeditor: the connection-interaction engine

    A shallow embedding of [nodeeditor/node_connection_interaction.py]
    (class [NodeConnectionInteraction]) and the properties of its
    [can_connect], [try_connect], [disconnect] and [node_port_is_empty].

    The Python methods read and mutate shared objects (the connection, the
    node's port state) and may raise; they are embedded in a state-and-
    exception monad over a [World] that holds those shared objects together
    with a chronological trace of the calls made to external collaborators. *)

From Stdlib Require Import ZArith.
From stdpp Require Import base option list gmap strings.

Local Open Scope Z_scope.

(** ** Port addressing ([port.py]) *)

Definition NodeId := nat.
Definition ConnId := nat.
Definition PortIndex := Z.
Bind Scope nat_scope with NodeId ConnId.

(** Modelled from the spec: the sentinel [INVALID] of [port.py] (not among the
    sources), the "none" index a hit-test answers when no port is hit.  Port
    indices proper are non-negative. *)
Definition INVALID : PortIndex := -1.

(** Modelled from the spec: the two directions a port can have,
    PortDirection ∈ {input, output}. *)
Inductive PortDirection := input | output.

(** Modelled from the spec: the enum [PortType] of [port.py] (not among the
    sources), as a run-time value.  A variable annotated [PortType] holds
    [PortType.none], [PortType.input] ([dir input]), [PortType.output]
    ([dir output]), or, Python checking no annotation, an object that is none
    of the three ([foreign]). *)
Inductive PortType :=
| none
| dir (d : PortDirection)
| foreign (tag : nat).

#[global] Instance PortDirection_eq_dec : EqDecision PortDirection.
Proof. solve_decision. Defined.
#[global] Instance PortType_eq_dec : EqDecision PortType.
Proof. solve_decision. Defined.

(** Modelled from the spec: [opposite_port] of [port.py] (not among the
    sources), the opposite-direction lookup. *)
Definition opposite_port (d : PortDirection) : PortDirection :=
  match d with input => output | output => input end.

(** ** Enums, data types, converters *)

(** Modelled from the spec: [ConnectionPolicy] of [enums.py] (not among the
    sources), ConnectionPolicy ∈ {one, many}. *)
Inductive ConnectionPolicy := one | many.

#[global] Instance ConnectionPolicy_eq_dec : EqDecision ConnectionPolicy.
Proof. solve_decision. Defined.

(** Modelled from the spec: a NodeDataType is an identifier (id, name). *)
Record NodeDataType := { id : string; name : string }.

(** Modelled from the spec: [type_converter.py] is not among the sources.  A
    TypeConverter is "a function-like value"; [DefaultTypeConverter] is the
    identity/default one, [registered k] stands for the k-th converter object
    held by a registry.  A Python variable holding "a converter or None" is an
    [option TypeConverter]. *)
Inductive TypeConverter :=
| DefaultTypeConverter
| registered (k : nat).

#[global] Instance TypeConverter_eq_dec : EqDecision TypeConverter.
Proof. solve_decision. Defined.

(** Python truth value of [if converter:]: a function-like object is true,
    [None] is false. *)
Definition truthy (converter : option TypeConverter) : bool :=
  match converter with Some _ => true | None => false end.

(** ** Exceptions ([exceptions.py] and builtins) *)

(** The four failures [can_connect] raises by name and the builtin errors
    the code can end with.  Modelled from the spec: [NoConverterFailure], the
    condition a registry may raise when it has no converter. *)
Inductive Exn :=
| ConnectionRequiresPortFailure
| ConnectionSelfFailure
| ConnectionPointFailure
| ConnectionPortNotEmptyFailure
| NoConverterFailure
| ValueError
| IndexError
| CollaboratorError.      (* any other error raised inside a collaborator *)

#[global] Instance Exn_eq_dec : EqDecision Exn.
Proof. solve_decision. Defined.

(** Modelled from the spec: the class hierarchy of [exceptions.py] (not among
    the sources).  Every failure kind of the taxonomy lies under the common
    [NodeConnectionFailure]; the builtin errors do not.  This is the test
    performed by [except NodeConnectionFailure]. *)
Definition is_NodeConnectionFailure (ex : Exn) : bool :=
  match ex with
  | ConnectionRequiresPortFailure | ConnectionSelfFailure
  | ConnectionPointFailure | ConnectionPortNotEmptyFailure
  | NoConverterFailure => true
  | ValueError | IndexError | CollaboratorError => false
  end.

(** What a Python call hands back when the callee may end without a
    [return] statement. *)
Inductive PyValue :=
| PyNone
| PyBool (b : bool).

(** ** Python list indexing

    [l[i]] for an integer [i]: non-negative indices count from the front,
    negative ones from the back, anything else raises [IndexError]. *)
Definition py_index (len : nat) (i : Z) : option nat :=
  if bool_decide (0 ≤ i < Z.of_nat len) then Some (Z.to_nat i)
  else if bool_decide (- Z.of_nat len ≤ i < 0)
       then Some (Z.to_nat (Z.of_nat len + i))
  else None.

Definition py_getitem {A} (l : list A) (i : Z) : option A :=
  n ← py_index (length l) i; l !! n.

Definition py_setitem {A} (l : list A) (i : Z) (x : A) : option (list A) :=
  n ← py_index (length l) i; Some (<[n := x]> l).

(** ** Shared mutable objects *)

(** Modelled from the spec: the connection object ([connection.py] is not
    among the sources).  Two logical ends, each bound to (node, index) or
    unbound; the direction it still requires; an optional type converter. *)
Record Connection := {
  in_node : option NodeId;
  in_port_index : PortIndex;
  out_node : option NodeId;
  out_port_index : PortIndex;
  required_port : PortType;
  type_converter : option TypeConverter
}.

(** Modelled from the spec: the node's Port State ([node_state.py] is not
    among the sources): per direction, one entry per port index holding the
    connections that occupy the port. *)
Record NodeState := {
  in_connections : list (gset ConnId);
  out_connections : list (gset ConnId)
}.

(** Modelled from the spec: [NodeState.get_entries], the table of one
    direction. *)
Definition get_entries (port_type : PortDirection) (st : NodeState)
  : list (gset ConnId) :=
  match port_type with
  | input => in_connections st
  | output => out_connections st
  end.

(** The node state with the table of one direction replaced. *)
Definition set_entries (port_type : PortDirection) (es : list (gset ConnId))
    (st : NodeState) : NodeState :=
  match port_type with
  | input => {| in_connections := es; out_connections := out_connections st |}
  | output => {| in_connections := in_connections st; out_connections := es |}
  end.

(** Calls to external collaborators whose occurrence the specification
    speaks about, in the order they are made. *)
Inductive Event :=
| registry_get_type_converter (d1 d2 : NodeDataType)
| data_port_out_connection_policy (i : PortIndex)
| logger_debug (ex : Exn)
| logger_info (ex : Exn)
| move_connections (n : NodeId)
| on_data_updated (n : NodeId) (i : PortIndex)
| propagate_empty_data (c : ConnId)
| grabMouse (c : ConnId).

Record World := {
  state : NodeState;          (* self._node.state *)
  connection : Connection;    (* self._connection *)
  trace : list Event
}.

(** ** The state-and-exception monad *)

Inductive Outcome (A : Type) :=
| Returns (a : A) (w : World)
| Raises (ex : Exn) (w : World).
Arguments Returns {A} a w.
Arguments Raises {A} ex w.

Definition M (A : Type) : Type := World → Outcome A.

#[global] Instance M_ret : MRet M := λ A a w, Returns a w.
#[global] Instance M_bind : MBind M := λ A B k m w,
  match m w with
  | Returns a w' => k a w'
  | Raises ex w' => Raises ex w'
  end.

Definition raise {A} (ex : Exn) : M A := λ w, Raises ex w.
Definition gets {A} (f : World → A) : M A := λ w, Returns (f w) w.
Definition emit (e : Event) : M unit := λ w,
  Returns () {| state := state w; connection := connection w;
                trace := trace w ++ [e] |}.
Definition put_state (st : NodeState) : M unit := λ w,
  Returns () {| state := st; connection := connection w; trace := trace w |}.
Definition put_connection (c : Connection) : M unit := λ w,
  Returns () {| state := state w; connection := c; trace := trace w |}.

(** [try: body  except NodeConnectionFailure as ex: handler ex], the body's
    value being passed on to [k]. *)
Definition try_except {A B} (body : M A) (handler : Exn → M B) (k : A → M B)
  : M B := λ w,
  match body w with
  | Returns a w' => k a w'
  | Raises ex w' =>
      if is_NodeConnectionFailure ex then handler ex w' else Raises ex w'
  end.

(** ** Collaborator operations on the shared objects *)

(** Modelled from the spec: [Connection.get_node], the node bound at that
    end, or [None]. *)
Definition get_node (port_type : PortDirection) (c : Connection)
  : option NodeId :=
  match port_type with input => in_node c | output => out_node c end.

(** Modelled from the spec: [Connection.get_port_index], the index recorded
    at that end. *)
Definition get_port_index (port_type : PortDirection) (c : Connection)
  : PortIndex :=
  match port_type with
  | input => in_port_index c
  | output => out_port_index c
  end.

(** The connection with one end and the required port rewritten. *)
Definition with_end (port_type : PortDirection) (n : option NodeId)
    (i : PortIndex) (rp : PortType) (c : Connection) : Connection :=
  match port_type with
  | input => {| in_node := n; in_port_index := i;
                out_node := out_node c; out_port_index := out_port_index c;
                required_port := rp; type_converter := type_converter c |}
  | output => {| in_node := in_node c; in_port_index := in_port_index c;
                 out_node := n; out_port_index := i;
                 required_port := rp; type_converter := type_converter c |}
  end.

(** Modelled from the spec: [Connection.set_node_to_port] binds the node at
    that end; as the comment at its call site in [try_connect] says, the port
    is no longer required afterwards. *)
Definition set_node_to_port (n : NodeId) (port_type : PortDirection)
    (i : PortIndex) : M unit :=
  c ← gets connection; put_connection (with_end port_type (Some n) i none c).

(** Modelled from the spec: [Connection.clear_node] clears the binding at
    that end. *)
Definition clear_node (port_type : PortDirection) : M unit :=
  c ← gets connection;
  put_connection (with_end port_type None INVALID (required_port c) c).

(** Modelled from the spec: the assignment [connection.required_port = d]
    marks the end as requiring that direction; it is the value
    [connection.state.required_port] reads from then on. *)
Definition set_required_port (rp : PortType) : M unit :=
  c ← gets connection;
  put_connection {| in_node := in_node c; in_port_index := in_port_index c;
                    out_node := out_node c;
                    out_port_index := out_port_index c;
                    required_port := rp;
                    type_converter := type_converter c |}.

(** Modelled from the spec: [Connection.set_type_converter] attaches the
    converter to the connection. *)
Definition set_type_converter (conv : option TypeConverter) : M unit :=
  c ← gets connection;
  put_connection {| in_node := in_node c; in_port_index := in_port_index c;
                    out_node := out_node c;
                    out_port_index := out_port_index c;
                    required_port := required_port c;
                    type_converter := conv |}.

(** Modelled from the spec: [NodeState.set_connection] records the
    connection in the entry of that direction and index. *)
Definition set_connection (port_type : PortDirection) (i : PortIndex)
    (c : ConnId) : M unit :=
  st ← gets state;
  let entries := get_entries port_type st in
  match py_getitem entries i with
  | None => raise IndexError
  | Some entry =>
      match py_setitem entries i ({[c]} ∪ entry) with
      | None => raise IndexError
      | Some es => put_state (set_entries port_type es st)
      end
  end.

(** Modelled from the spec: [NodeState.erase_connection] removes the
    connection from the entry of that direction and index. *)
Definition erase_connection (port_type : PortDirection) (i : PortIndex)
    (c : ConnId) : M unit :=
  st ← gets state;
  let entries := get_entries port_type st in
  match py_getitem entries i with
  | None => raise IndexError
  | Some entry =>
      match py_setitem entries i (entry ∖ {[c]}) with
      | None => raise IndexError
      | Some es => put_state (set_entries port_type es st)
      end
  end.

(** ** The engine: [class NodeConnectionInteraction] *)

(** What a call into a side-effect-free collaborator can do: answer or
    raise. *)
Inductive Answer (A : Type) :=
| answers (a : A)
| fails (ex : Exn).
Arguments answers {A} a.
Arguments fails {A} ex.

Section Engine.
(** Scene coordinates are floating-point Qt values; the engine only passes
    them between collaborators, so their types stay abstract. *)
Context {QPointF QTransform : Type}.

(** The object built by [__init__]: the identities of [self._node] and
    [self._connection], and the interfaces of the collaborators reached
    through them and through [self._scene]; none of these change during a
    call. *)
Record NodeConnectionInteraction := {
  _node : NodeId;
  _connection : ConnId;
  (* self._node.data *)
  data_type : PortDirection → PortIndex → NodeDataType;
  port_out_connection_policy : PortIndex → ConnectionPolicy;
  (* self._node.geometry, self._node.graphics_object *)
  sceneTransform : QTransform;
  check_hit_scene_point : PortDirection → QPointF → QTransform → PortIndex;
  port_scene_position : PortDirection → PortIndex → QPointF;
  transform_map : QTransform → QPointF → QPointF;
  (* self._connection.geometry, .graphics_object, .data_type *)
  get_end_point : PortDirection → QPointF;
  mapToScene : QPointF → QPointF;
  connection_data_type : PortDirection → NodeDataType;
  (* self._scene.registry *)
  get_type_converter :
    NodeDataType → NodeDataType → Answer (option TypeConverter)
}.

Variable self : NodeConnectionInteraction.

Definition connection_required_port : M PortType :=
  gets (λ w, required_port (connection w)).

Definition connection_end_scene_position (port_type : PortDirection)
  : M QPointF :=
  let end_point := get_end_point self port_type in
  mret (mapToScene self end_point).

Definition node_port_scene_position (port_type : PortDirection)
    (port_index : PortIndex) : M QPointF :=
  let p := port_scene_position self port_type port_index in
  mret (transform_map self (sceneTransform self) p).

Definition node_port_index_under_scene_point (port_type : PortDirection)
    (scene_point : QPointF) : M PortIndex :=
  let scene_transform := sceneTransform self in
  mret (check_hit_scene_point self port_type scene_point scene_transform).

Definition node_port_is_empty (port_type : PortDirection)
    (port_index : PortIndex) : M bool :=
  node_state ← gets state;
  let entries := get_entries port_type node_state in
  match py_getitem entries port_index with
  | None => raise IndexError
  | Some entry =>
      if bool_decide (entry = ∅) then mret true
      else
        emit (data_port_out_connection_policy port_index);;
        let out_policy := port_out_connection_policy self port_index in
        mret (bool_decide (port_type = output)
              && bool_decide (out_policy = many))
  end.

(** [registry.get_type_converter(d1, d2)] as called from [can_connect]. *)
Definition registry_lookup (d1 d2 : NodeDataType)
  : M (option TypeConverter) :=
  emit (registry_get_type_converter d1 d2);;
  match get_type_converter self d1 d2 with
  | answers converter => mret converter
  | fails ex => raise ex
  end.

Definition can_connect : M (PortIndex * option TypeConverter) :=
  (* 1) Connection requires a port *)
  rp ← connection_required_port;
  match rp with
  | none => raise ConnectionRequiresPortFailure
  | foreign _ => raise ValueError
  | dir required_port =>
      (* 1.5) Forbid connecting the node to itself *)
      node ← gets (λ w, get_node (opposite_port required_port)
                           (connection w));
      if bool_decide (node = Some (_node self))
      then raise ConnectionSelfFailure
      else
        (* 2) connection point is on top of the node port *)
        connection_point ← connection_end_scene_position required_port;
        port_index ← node_port_index_under_scene_point required_port
                       connection_point;
        if bool_decide (port_index = INVALID)
        then raise ConnectionPointFailure
        else
          (* 3) Node port is vacant *)
          empty ← node_port_is_empty required_port port_index;
          if negb empty then raise ConnectionPortNotEmptyFailure
          else
            (* 4) type equality, or a registered conversion *)
            let connection_data_type :=
              connection_data_type self (opposite_port required_port) in
            let candidate_node_data_type :=
              data_type self required_port port_index in
            if bool_decide (id connection_data_type
                            = id candidate_node_data_type)
            then mret (port_index, Some DefaultTypeConverter)
            else
              converter ←
                match required_port with
                | input => registry_lookup connection_data_type
                             candidate_node_data_type
                | output => registry_lookup candidate_node_data_type
                              connection_data_type
                end;
              mret (port_index, converter)
  end.

(** The statements of [try_connect] that follow the [try] block. *)
Definition commit (port_index : PortIndex)
    (converter : option TypeConverter) : M bool :=
  (* 1.5) assign a converter to the connection *)
  (if truthy converter then set_type_converter converter else mret ());;
  (* 2) assign the connection to the port in the node state *)
  rp ← connection_required_port;
  match rp with
  | dir required_port =>
      set_connection required_port port_index (_connection self);;
      (* 3) the port is no longer required after this call *)
      set_node_to_port (_node self) required_port port_index;;
      (* 4) adjust connection geometry *)
      emit (move_connections (_node self));;
      (* 5) poke the model to initiate data transfer *)
      out_node ← gets (λ w, get_node output (connection w));
      match out_node with
      | Some out_node =>
          out_port_index ← gets (λ w, get_port_index output (connection w));
          emit (on_data_updated out_node out_port_index)
      | None => mret ()
      end;;
      mret true
  | none | foreign _ =>
      (* the node state has no entries for a non-direction *)
      raise CollaboratorError
  end.

Definition try_connect : M bool :=
  try_except can_connect
    (λ ex, emit (logger_debug ex);; emit (logger_info ex);; mret false)
    (λ r, commit r.1 r.2).

Definition disconnect (port_to_disconnect : PortDirection) : M PyValue :=
  port_index ← gets (λ w, get_port_index port_to_disconnect (connection w));
  (* clear the connection in the node state *)
  erase_connection port_to_disconnect port_index (_connection self);;
  (* propagate invalid data to the IN node *)
  emit (propagate_empty_data (_connection self));;
  (* clear the connection side *)
  clear_node port_to_disconnect;;
  set_required_port (dir port_to_disconnect);;
  emit (grabMouse (_connection self));;
  (* the body ends here, without a return statement *)
  mret PyNone.

End Engine.

(** ** Observing an outcome *)

(** The value or exception a call ends with, and the world it leaves. *)
Definition result {A} (o : Outcome A) : Answer A :=
  match o with Returns a _ => answers a | Raises ex _ => fails ex end.

Definition final {A} (o : Outcome A) : World :=
  match o with Returns _ w => w | Raises _ w => w end.

(** The world [w] after the external calls [es] have been made. *)
Definition log (es : list Event) (w : World) : World :=
  {| state := state w; connection := connection w; trace := trace w ++ es |}.

(** The index answered by the hit-test of the dangling end of direction [d]:
    [node_port_index_under_scene_point(d, connection_end_scene_position(d))]. *)
Definition hit_index {QPointF QTransform}
    (self : @NodeConnectionInteraction QPointF QTransform)
    (d : PortDirection) : PortIndex :=
  check_hit_scene_point self d (mapToScene self (get_end_point self d))
    (sceneTransform self).

(** The registry query [can_connect] makes for a port of direction [d]:
    connection type to port type for an input, the reverse for an output. *)
Definition oriented_query (d : PortDirection)
    (connection_type port_type : NodeDataType)
  : NodeDataType * NodeDataType :=
  match d with
  | input => (connection_type, port_type)
  | output => (port_type, connection_type)
  end.

(** Step 4 of [can_connect] on its own, for a port of direction [d] and
    index [i]: the default converter when the type identifiers agree,
    otherwise whatever the oriented registry query answers. *)
Definition type_resolution {QPointF QTransform}
    (self : @NodeConnectionInteraction QPointF QTransform)
    (d : PortDirection) (i : PortIndex)
  : Answer (PortIndex * option TypeConverter) :=
  let ct := connection_data_type self (opposite_port d) in
  let pt := data_type self d i in
  if bool_decide (id ct = id pt) then answers (i, Some DefaultTypeConverter)
  else
    let q := oriented_query d ct pt in
    match get_type_converter self q.1 q.2 with
    | answers conv => answers (i, conv)
    | fails ex => fails ex
    end.

(** The connection with converter [conv] attached. *)
Definition attach (conv : option TypeConverter) (c : Connection)
  : Connection :=
  {| in_node := in_node c; in_port_index := in_port_index c;
     out_node := out_node c; out_port_index := out_port_index c;
     required_port := required_port c; type_converter := conv |}.

(** The notification [try_connect] ends with: the node bound at the output
    end of the connection, if any, is told about its output port. *)
Definition poke (c : Connection) : list Event :=
  match get_node output c with
  | Some out_node => [on_data_updated out_node (get_port_index output c)]
  | None => []
  end.

(** ** Concrete scenes

    Two nodes A and B and one connection; the engine is built for a
    candidate node, with a hit-test answering a fixed index per direction, a
    single data type on the connection and on the candidate's ports, and one
    out-policy for all ports. *)

Definition node_A : NodeId := 1.
Definition node_B : NodeId := 2.
Definition the_connection : ConnId := 7.

Definition T : NodeDataType := {| id := "T"; name := "T" |}.
Definition T1 : NodeDataType := {| id := "T1"; name := "T1" |}.
Definition T2 : NodeDataType := {| id := "T2"; name := "T2" |}.

(** A registry with nothing registered: every lookup answers "none found". *)
Definition empty_registry (d1 d2 : NodeDataType)
  : Answer (option TypeConverter) := answers None.

(** A registry holding exactly one converter, from [T1] to [T2]. *)
Definition registry_T1_T2 (d1 d2 : NodeDataType)
  : Answer (option TypeConverter) :=
  if bool_decide (id d1 = "T1" ∧ id d2 = "T2")
  then answers (Some (registered 0))
  else answers None.

Definition engine (candidate : NodeId) (hit : PortIndex)
    (connection_type port_type : NodeDataType) (policy : ConnectionPolicy)
    (registry : NodeDataType → NodeDataType → Answer (option TypeConverter))
  : @NodeConnectionInteraction unit unit :=
  {| _node := candidate;
     _connection := the_connection;
     data_type := λ _ _, port_type;
     port_out_connection_policy := λ _, policy;
     sceneTransform := ();
     check_hit_scene_point := λ _ _ _, hit;
     port_scene_position := λ _ _, ();
     transform_map := λ _ p, p;
     get_end_point := λ _, ();
     mapToScene := λ p, p;
     connection_data_type := λ _, connection_type;
     get_type_converter := registry |}.

(** The connection dragged out of output port 2 of node A: its input end
    dangles. *)
Definition dangling_input : Connection :=
  {| in_node := None; in_port_index := INVALID;
     out_node := Some node_A; out_port_index := 2;
     required_port := dir input; type_converter := None |}.

(** The same connection once its input end is bound to port 1 of node B. *)
Definition bound_both : Connection :=
  {| in_node := Some node_B; in_port_index := 1;
     out_node := Some node_A; out_port_index := 2;
     required_port := none; type_converter := None |}.

(** A connection whose input end sits on port 1 of node B and whose output
    end dangles. *)
Definition dangling_output : Connection :=
  {| in_node := Some node_B; in_port_index := 1;
     out_node := None; out_port_index := INVALID;
     required_port := dir output; type_converter := None |}.

(** A connection whose state holds something that is no port type. *)
Definition corrupted : Connection :=
  {| in_node := None; in_port_index := INVALID;
     out_node := Some node_A; out_port_index := 2;
     required_port := foreign 0; type_converter := None |}.

(** Port states of a node with three ports per direction. *)
Definition vacant : NodeState :=
  {| in_connections := [∅; ∅; ∅]; out_connections := [∅; ∅; ∅] |}.

Definition input_1_taken (by_conn : ConnId) : NodeState :=
  {| in_connections := [∅; {[by_conn]}; ∅]; out_connections := [∅; ∅; ∅] |}.

Definition output_2_taken (by_conn : ConnId) : NodeState :=
  {| in_connections := [∅; ∅; ∅]; out_connections := [∅; ∅; {[by_conn]}] |}.

Definition world (st : NodeState) (c : Connection) : World :=
  {| state := st; connection := c; trace := [] |}.

(** An engine like [engine], built for another connection. *)
Definition engine_of (conn : ConnId) (candidate : NodeId) (hit : PortIndex)
    (connection_type port_type : NodeDataType) (policy : ConnectionPolicy)
    (registry : NodeDataType → NodeDataType → Answer (option TypeConverter))
  : @NodeConnectionInteraction unit unit :=
  {| _node := candidate;
     _connection := conn;
     data_type := λ _ _, port_type;
     port_out_connection_policy := λ _, policy;
     sceneTransform := ();
     check_hit_scene_point := λ _ _ _, hit;
     port_scene_position := λ _ _, ();
     transform_map := λ _ p, p;
     get_end_point := λ _, ();
     mapToScene := λ p, p;
     connection_data_type := λ _, connection_type;
     get_type_converter := registry |}.

(** * Properties *)

(** ** Python indexing *)

Lemma py_index_None len i :
  py_index len i = None ↔ ¬ (- Z.of_nat len ≤ i < Z.of_nat len).
Proof.
  unfold py_index. repeat case_bool_decide; split; intros; try done; lia.
Qed.

Lemma py_index_lt len i n : py_index len i = Some n → (n < len)%nat.
Proof.
  unfold py_index. repeat case_bool_decide; intros; simplify_eq; lia.
Qed.

Lemma py_index_nonneg len i :
  0 ≤ i < Z.of_nat len → py_index len i = Some (Z.to_nat i).
Proof. intros. unfold py_index. by rewrite bool_decide_eq_true_2. Qed.

Lemma py_getitem_Some {A} (l : list A) i x :
  py_getitem l i = Some x ↔
  ∃ n, py_index (length l) i = Some n ∧ l !! n = Some x.
Proof.
  unfold py_getitem. destruct (py_index (length l) i) as [n|]; simpl.
  - split; [eauto | by intros (? & [= ->] & ?)].
  - split; [done | by intros (? & ? & ?)].
Qed.

Lemma py_getitem_None {A} (l : list A) i :
  py_getitem l i = None ↔ ¬ (- Z.of_nat (length l) ≤ i < Z.of_nat (length l)).
Proof.
  rewrite <- py_index_None. unfold py_getitem.
  destruct (py_index (length l) i) as [n|] eqn:E; simpl; [|done].
  apply py_index_lt in E. apply lookup_lt_is_Some_2 in E as [x ->].
  split; done.
Qed.

Lemma py_setitem_Some {A} (l : list A) i n x :
  py_index (length l) i = Some n → py_setitem l i x = Some (<[n := x]> l).
Proof. intros E. unfold py_setitem. by rewrite E. Qed.

Lemma py_getitem_setitem {A} (l : list A) i n x :
  py_index (length l) i = Some n → py_getitem (<[n := x]> l) i = Some x.
Proof.
  intros E. unfold py_getitem. rewrite length_insert, E. simpl.
  apply list_lookup_insert_eq. by eapply py_index_lt.
Qed.

(** ** Entries of the node state *)

Lemma get_set_entries d es st : get_entries d (set_entries d es st) = es.
Proof. by destruct d. Qed.

Lemma set_entries_twice d es es' st :
  set_entries d es' (set_entries d es st) = set_entries d es' st.
Proof. by destruct d. Qed.

Lemma set_get_entries d st : set_entries d (get_entries d st) st = st.
Proof. by destruct d, st. Qed.

Lemma entry_add_elem (c : ConnId) (entry : gset ConnId) :
  c ∈ ({[c]} ∪ entry : gset ConnId).
Proof. apply elem_of_union. left. by apply elem_of_singleton. Qed.

Lemma entry_remove_not_elem (c : ConnId) (entry : gset ConnId) :
  c ∉ entry ∖ {[c]}.
Proof. apply not_elem_of_difference. right. by apply elem_of_singleton. Qed.

Lemma entry_add_remove (c : ConnId) (entry : gset ConnId) :
  c ∉ entry → ({[c]} ∪ entry) ∖ {[c]} = entry.
Proof.
  intros Hnotin. apply set_eq. intros x.
  rewrite elem_of_difference, elem_of_union, elem_of_singleton. split.
  - by intros [[?|?] ?].
  - intros Hx. split; [by right|]. by intros ->.
Qed.

Section Properties.
Context {QPointF QTransform : Type}.
Variable self : @NodeConnectionInteraction QPointF QTransform.

(** ** [node_port_is_empty] *)

Lemma node_port_is_empty_run d i w entry :
  py_getitem (get_entries d (state w)) i = Some entry →
  node_port_is_empty self d i w =
    if bool_decide (entry = ∅) then Returns true w
    else Returns (bool_decide (d = output)
                  && bool_decide (port_out_connection_policy self i = many))
           (log [data_port_out_connection_policy i] w).
Proof.
  intros E. unfold node_port_is_empty, mbind, M_bind, gets. simpl.
  rewrite E. by case_bool_decide.
Qed.

Lemma node_port_is_empty_raises d i w :
  py_getitem (get_entries d (state w)) i = None →
  node_port_is_empty self d i w = Raises IndexError w.
Proof.
  intros E. unfold node_port_is_empty, mbind, M_bind, gets. simpl.
  by rewrite E.
Qed.

Lemma node_port_is_empty_pure d i w :
  state (final (node_port_is_empty self d i w)) = state w ∧
  connection (final (node_port_is_empty self d i w)) = connection w.
Proof.
  destruct (py_getitem (get_entries d (state w)) i) as [entry|] eqn:E.
  - rewrite (node_port_is_empty_run _ _ _ _ E). by case_bool_decide.
  - by rewrite (node_port_is_empty_raises _ _ _ E).
Qed.

(** ** [can_connect], statement by statement *)

Lemma can_connect_unfold w :
  can_connect self w =
    match required_port (connection w) with
    | none => Raises ConnectionRequiresPortFailure w
    | foreign _ => Raises ValueError w
    | dir d =>
        if bool_decide (get_node (opposite_port d) (connection w)
                        = Some (_node self))
        then Raises ConnectionSelfFailure w
        else if bool_decide (hit_index self d = INVALID)
        then Raises ConnectionPointFailure w
        else
          match node_port_is_empty self d (hit_index self d) w with
          | Raises ex w' => Raises ex w'
          | Returns empty w' =>
              if negb empty then Raises ConnectionPortNotEmptyFailure w'
              else
                let ct := connection_data_type self (opposite_port d) in
                let pt := data_type self d (hit_index self d) in
                if bool_decide (id ct = id pt)
                then Returns (hit_index self d, Some DefaultTypeConverter) w'
                else
                  let q := oriented_query d ct pt in
                  let w'' := log [registry_get_type_converter q.1 q.2] w' in
                  match get_type_converter self q.1 q.2 with
                  | answers conv => Returns (hit_index self d, conv) w''
                  | fails ex => Raises ex w''
                  end
          end
    end.
Proof.
  unfold can_connect, connection_required_port, mbind, M_bind, gets, raise.
  destruct (required_port (connection w)) as [|d|tag]; try done.
  simpl. case_bool_decide; [done|].
  unfold hit_index. case_bool_decide; [done|].
  destruct (node_port_is_empty _ _ _ _) as [[] w'|ex w']; simpl; try done.
  case_bool_decide; [done|].
  unfold registry_lookup, mbind, M_bind, emit, log.
  destruct d; simpl; by destruct (get_type_converter _ _ _).
Qed.

Lemma can_connect_pure w :
  state (final (can_connect self w)) = state w ∧
  connection (final (can_connect self w)) = connection w.
Proof.
  rewrite can_connect_unfold.
  destruct (required_port (connection w)) as [|d|tag]; try done.
  repeat (case_bool_decide; [done|]).
  pose proof (node_port_is_empty_pure d (hit_index self d) w) as [Hs Hc].
  destruct (node_port_is_empty _ _ _ _) as [[] w'|ex w']; simpl in *;
    try done.
  case_bool_decide; [done|].
  by destruct (get_type_converter _ _ _).
Qed.

(** ** [try_connect], statement by statement *)

Lemma try_connect_unfold w :
  try_connect self w =
    match can_connect self w with
    | Returns r w' => commit self r.1 r.2 w'
    | Raises ex w' =>
        if is_NodeConnectionFailure ex
        then Returns false (log [logger_debug ex; logger_info ex] w')
        else Raises ex w'
    end.
Proof.
  unfold try_connect, try_except.
  destruct (can_connect self w) as [r w'|ex w']; [done|].
  destruct (is_NodeConnectionFailure ex); [|done].
  unfold mbind, M_bind, emit, log. simpl. by rewrite <- app_assoc.
Qed.

Lemma commit_run i conv w d n entry :
  required_port (connection w) = dir d →
  py_index (length (get_entries d (state w))) i = Some n →
  get_entries d (state w) !! n = Some entry →
  let c' := with_end d (Some (_node self)) i none
              (if truthy conv then attach conv (connection w)
               else connection w) in
  commit self i conv w =
    Returns true
      {| state := set_entries d
                    (<[n := {[_connection self]} ∪ entry]>
                       (get_entries d (state w)))
                    (state w);
         connection := c';
         trace := trace w ++ move_connections (_node self) :: poke c' |}.
Proof.
  intros Hrp Hn He c'.
  assert (py_getitem (get_entries d (state w)) i = Some entry) as Hget
    by (apply py_getitem_Some; eauto).
  unfold commit, connection_required_port, set_connection, set_node_to_port,
    set_type_converter, put_connection, put_state, emit, gets,
    mbind, M_bind, mret, M_ret.
  assert (required_port
            (if truthy conv then attach conv (connection w)
             else connection w) = dir d) as Hrp'
    by (by destruct (truthy conv)).
  destruct (truthy conv) eqn:Ht; simpl in *;
    rewrite Hrp; simpl; rewrite Hget, (py_setitem_Some _ _ _ _ Hn); simpl;
    subst c'; unfold poke, raise;
    destruct d; simpl;
    repeat match goal with
           | |- context [match ?x with Some _ => _ | None => _ end] =>
               destruct x
           end; simpl; rewrite <- ?app_assoc; try done.
  all: by rewrite app_nil_r.
Qed.

(** What a successful [can_connect] tells about the world it ran in. *)
Lemma can_connect_returns w i conv :
  result (can_connect self w) = answers (i, conv) →
  ∃ d entry,
    required_port (connection w) = dir d ∧
    get_node (opposite_port d) (connection w) ≠ Some (_node self) ∧
    i = hit_index self d ∧ i ≠ INVALID ∧
    py_getitem (get_entries d (state w)) i = Some entry ∧
    (entry = ∅ ∨ d = output ∧ port_out_connection_policy self i = many).
Proof.
  rewrite can_connect_unfold.
  destruct (required_port (connection w)) as [|d|tag]; try done.
  case_bool_decide as Hself; [done|].
  case_bool_decide as Hhit; [done|].
  destruct (py_getitem (get_entries d (state w)) (hit_index self d))
    as [entry|] eqn:E.
  2: { by rewrite (node_port_is_empty_raises _ _ _ E). }
  rewrite (node_port_is_empty_run _ _ _ _ E).
  intros H. exists d, entry.
  assert (i = hit_index self d) as ->.
  { repeat case_bool_decide; simpl in H;
      repeat (case_bool_decide || destruct (get_type_converter _ _ _));
      simpl in H; by simplify_eq. }
  repeat split; try done.
  case_bool_decide as He; [by left|right].
  destruct (bool_decide (d = output)) eqn:Hd;
    destruct (bool_decide
                (port_out_connection_policy self (hit_index self d) = many))
      eqn:Hp; simpl in H; try done.
  split; by eapply bool_decide_eq_true_1.
Qed.

(** A successful [can_connect] is always followed by a full commit. *)
Lemma try_connect_after_can_connect w i conv :
  result (can_connect self w) = answers (i, conv) →
  ∃ d n entry,
    required_port (connection w) = dir d ∧
    py_index (length (get_entries d (state w))) i = Some n ∧
    get_entries d (state w) !! n = Some entry ∧
    let c' := with_end d (Some (_node self)) i none
                (if truthy conv then attach conv (connection w)
                 else connection w) in
    try_connect self w =
      Returns true
        {| state := set_entries d
                      (<[n := {[_connection self]} ∪ entry]>
                         (get_entries d (state w)))
                      (state w);
           connection := c';
           trace := trace (final (can_connect self w))
                      ++ move_connections (_node self) :: poke c' |}.
Proof.
  intros H.
  destruct (can_connect_returns _ _ _ H)
    as (d & entry & Hrp & _ & _ & _ & Hget & _).
  apply py_getitem_Some in Hget as (n & Hn & He).
  exists d, n, entry. repeat split; try done.
  rewrite try_connect_unfold.
  pose proof (can_connect_pure w) as [Hs Hc].
  destruct (can_connect self w) as [r w'|ex w']; [|done].
  simpl in *. simplify_eq. simpl.
  rewrite <- Hs, <- Hc in *.
  by rewrite (commit_run i conv w' d n entry).
Qed.

(** Exceptions outside the category pass through [try_connect], and
    [False] comes from nowhere but the handler. *)
Lemma try_connect_propagates w ex :
  result (can_connect self w) = fails ex →
  is_NodeConnectionFailure ex = false →
  try_connect self w = Raises ex (final (can_connect self w)).
Proof.
  intros Hres Hcat. rewrite try_connect_unfold.
  destruct (can_connect self w) as [r w'|ex' w']; [done|].
  simpl in *. simplify_eq. by rewrite Hcat.
Qed.

Lemma try_connect_false w :
  result (try_connect self w) = answers false →
  ∃ ex, result (can_connect self w) = fails ex ∧
        is_NodeConnectionFailure ex = true.
Proof.
  intros Hfalse.
  destruct (can_connect self w) as [[i conv] w'|ex w'] eqn:E.
  - assert (result (can_connect self w) = answers (i, conv)) as H
      by (by rewrite E).
    destruct (try_connect_after_can_connect _ _ _ H)
      as (d & n & entry & _ & _ & _ & Hrun).
    simpl in Hrun. by rewrite Hrun in Hfalse.
  - exists ex. split; [done|].
    rewrite try_connect_unfold, E in Hfalse.
    by destruct (is_NodeConnectionFailure ex).
Qed.

(** ** [disconnect], statement by statement *)

Lemma disconnect_run d w n entry :
  py_index (length (get_entries d (state w)))
    (get_port_index d (connection w)) = Some n →
  get_entries d (state w) !! n = Some entry →
  disconnect self d w =
    Returns PyNone
      {| state := set_entries d
                    (<[n := entry ∖ {[_connection self]}]>
                       (get_entries d (state w)))
                    (state w);
         connection := with_end d None INVALID (dir d) (connection w);
         trace := trace w ++ [propagate_empty_data (_connection self);
                              grabMouse (_connection self)] |}.
Proof.
  intros Hn He.
  assert (py_getitem (get_entries d (state w))
            (get_port_index d (connection w)) = Some entry) as Hget
    by (apply py_getitem_Some; eauto).
  unfold disconnect, erase_connection, clear_node, set_required_port,
    put_connection, put_state, emit, gets, mbind, M_bind, mret, M_ret.
  simpl. rewrite Hget, (py_setitem_Some _ _ _ _ Hn). simpl.
  rewrite <- app_assoc. by destruct d.
Qed.

Lemma disconnect_raises d w :
  py_index (length (get_entries d (state w)))
    (get_port_index d (connection w)) = None →
  disconnect self d w = Raises IndexError w.
Proof.
  intros Hn.
  unfold disconnect, erase_connection, gets, mbind, M_bind. simpl.
  unfold py_getitem. by rewrite Hn.
Qed.

(** Whatever the world, a [disconnect] that completes hands back [None]. *)
Lemma disconnect_result d w v :
  result (disconnect self d w) = answers v → v = PyNone.
Proof.
  destruct (py_index (length (get_entries d (state w)))
              (get_port_index d (connection w))) as [n|] eqn:Hn.
  - destruct (lookup_lt_is_Some_2 (get_entries d (state w)) n
                (py_index_lt _ _ _ Hn)) as [entry He].
    rewrite (disconnect_run d w n entry Hn He). simpl. congruence.
  - by rewrite (disconnect_raises d w Hn).
Qed.

(** ** The validation chain of [can_connect] *)

Lemma can_connect_not_empty w d entry :
  required_port (connection w) = dir d →
  get_node (opposite_port d) (connection w) ≠ Some (_node self) →
  hit_index self d ≠ INVALID →
  py_getitem (get_entries d (state w)) (hit_index self d) = Some entry →
  entry ≠ ∅ →
  ¬ (d = output ∧ port_out_connection_policy self (hit_index self d) = many) →
  result (can_connect self w) = fails ConnectionPortNotEmptyFailure.
Proof.
  intros Hrp Hself Hhit Hget He Hpol.
  rewrite can_connect_unfold, Hrp.
  rewrite !bool_decide_eq_false_2 by done.
  rewrite (node_port_is_empty_run _ _ _ _ Hget).
  rewrite bool_decide_eq_false_2 by done.
  destruct (bool_decide (d = output)) eqn:Hd; [|done].
  destruct (bool_decide (_ = many)) eqn:Hp; [|done].
  apply bool_decide_eq_true_1 in Hd, Hp. by destruct Hpol.
Qed.

Lemma can_connect_resolves w d entry :
  required_port (connection w) = dir d →
  get_node (opposite_port d) (connection w) ≠ Some (_node self) →
  hit_index self d ≠ INVALID →
  py_getitem (get_entries d (state w)) (hit_index self d) = Some entry →
  entry = ∅ ∨
    d = output ∧ port_out_connection_policy self (hit_index self d) = many →
  result (can_connect self w) = type_resolution self d (hit_index self d).
Proof.
  intros Hrp Hself Hhit Hget Hvacant.
  rewrite can_connect_unfold, Hrp.
  rewrite !bool_decide_eq_false_2 by done.
  rewrite (node_port_is_empty_run _ _ _ _ Hget).
  unfold type_resolution.
  assert (∀ w',
    result
      (if negb true then Raises ConnectionPortNotEmptyFailure w'
       else
         let ct := connection_data_type self (opposite_port d) in
         let pt := data_type self d (hit_index self d) in
         if bool_decide (id ct = id pt)
         then Returns (hit_index self d, Some DefaultTypeConverter) w'
         else
           let q := oriented_query d ct pt in
           let w'' := log [registry_get_type_converter q.1 q.2] w' in
           match get_type_converter self q.1 q.2 with
           | answers conv => Returns (hit_index self d, conv) w''
           | fails ex => Raises ex w''
           end)
    = type_resolution self d (hit_index self d)) as Hres.
  { intros w'. unfold type_resolution. simpl.
    case_bool_decide; [done|]. by destruct (get_type_converter _ _ _). }
  case_bool_decide as He; [apply Hres|].
  destruct Hvacant as [?|[-> Hp]]; [done|].
  rewrite !bool_decide_eq_true_2 by done. apply Hres.
Qed.

(** The two outcomes of the type resolution that do not depend on a
    missing converter. *)
Lemma type_resolution_match d i :
  id (connection_data_type self (opposite_port d)) = id (data_type self d i) →
  type_resolution self d i = answers (i, Some DefaultTypeConverter).
Proof. intros H. unfold type_resolution. by rewrite bool_decide_eq_true_2. Qed.

Lemma type_resolution_registered d i conv :
  id (connection_data_type self (opposite_port d)) ≠ id (data_type self d i) →
  get_type_converter self
    (oriented_query d (connection_data_type self (opposite_port d))
       (data_type self d i)).1
    (oriented_query d (connection_data_type self (opposite_port d))
       (data_type self d i)).2
    = answers conv →
  type_resolution self d i = answers (i, conv).
Proof.
  intros Hne Hreg. unfold type_resolution.
  rewrite bool_decide_eq_false_2 by done. simpl. by rewrite Hreg.
Qed.

(** ** The claims about validation and failure handling *)

(** C2: whenever [can_connect] raises an exception of the connection-failure
    category, [can_connect] has left the connection and the node's port
    state as they were, and [try_connect] absorbs the exception: it logs it
    (debug, then info), returns [False], and leaves the connection and the
    node's port state as they were. *)
Theorem try_connect_absorbs_connection_failure w ex :
  result (can_connect self w) = fails ex →
  is_NodeConnectionFailure ex = true →
  (state (final (can_connect self w)) = state w ∧
   connection (final (can_connect self w)) = connection w) ∧
  try_connect self w =
    Returns false
      (log [logger_debug ex; logger_info ex] (final (can_connect self w))) ∧
  state (final (try_connect self w)) = state w ∧
  connection (final (try_connect self w)) = connection w.
Proof.
  intros Hres Hcat.
  pose proof (can_connect_pure w) as [Hs Hc].
  rewrite try_connect_unfold.
  destruct (can_connect self w) as [r w'|ex' w']; [done|].
  simpl in *. simplify_eq. by rewrite Hcat.
Qed.

(** C3: [can_connect] checks in a fixed order and stops at the first
    failure: no required port, then self-connection (whatever the hit-test
    and the port state say), then the hit-test, then occupancy, and only
    then the type resolution. *)
Theorem can_connect_check_order w :
  (required_port (connection w) = none →
   result (can_connect self w) = fails ConnectionRequiresPortFailure) ∧
  (∀ d, required_port (connection w) = dir d →
    (get_node (opposite_port d) (connection w) = Some (_node self) →
     result (can_connect self w) = fails ConnectionSelfFailure) ∧
    (get_node (opposite_port d) (connection w) ≠ Some (_node self) →
      (hit_index self d = INVALID →
       result (can_connect self w) = fails ConnectionPointFailure) ∧
      (hit_index self d ≠ INVALID →
       ∀ entry,
         py_getitem (get_entries d (state w)) (hit_index self d)
           = Some entry →
         (entry ≠ ∅ ∧
          ¬ (d = output ∧
             port_out_connection_policy self (hit_index self d) = many) →
          result (can_connect self w)
            = fails ConnectionPortNotEmptyFailure) ∧
         (entry = ∅ ∨
          d = output ∧
          port_out_connection_policy self (hit_index self d) = many →
          result (can_connect self w)
            = type_resolution self d (hit_index self d))))).
Proof.
  split.
  { intros Hrp. by rewrite can_connect_unfold, Hrp. }
  intros d Hrp. split.
  { intros Hself. rewrite can_connect_unfold, Hrp.
    by rewrite bool_decide_eq_true_2. }
  intros Hself. split.
  { intros Hhit. rewrite can_connect_unfold, Hrp.
    rewrite bool_decide_eq_false_2 by done.
    by rewrite bool_decide_eq_true_2. }
  intros Hhit entry Hget. split.
  - intros [He Hpol]. by eapply can_connect_not_empty.
  - intros Hvacant. by eapply can_connect_resolves.
Qed.

(** C4: on an addressable slot [node_port_is_empty] returns [True] exactly
    when the stored entry is empty or the direction is output and the out
    policy of that index is many, and it changes neither the connection nor
    the port state.  Accordingly, once the earlier checks pass, an occupied
    port whose policy is not many makes [can_connect] raise
    ConnectionPortNotEmptyFailure, while on an output port with policy many
    the outcome is that of the type resolution, whatever the entry holds. *)
Theorem node_port_is_empty_occupancy d i w entry :
  py_getitem (get_entries d (state w)) i = Some entry →
  (∃ b, result (node_port_is_empty self d i w) = answers b ∧
        (b = true ↔
         entry = ∅ ∨ d = output ∧ port_out_connection_policy self i = many))
  ∧ state (final (node_port_is_empty self d i w)) = state w
  ∧ connection (final (node_port_is_empty self d i w)) = connection w
  ∧ (required_port (connection w) = dir d →
     get_node (opposite_port d) (connection w) ≠ Some (_node self) →
     hit_index self d = i →
     i ≠ INVALID →
     (entry ≠ ∅ → port_out_connection_policy self i ≠ many →
      result (can_connect self w) = fails ConnectionPortNotEmptyFailure) ∧
     (d = output → port_out_connection_policy self i = many →
      result (can_connect self w) = type_resolution self d i)).
Proof.
  intros Hget. split; [|split; [|split]].
  - rewrite (node_port_is_empty_run _ _ _ _ Hget).
    case_bool_decide as He.
    + exists true. split; [done|]. split; [by left|done].
    + eexists. split; [done|].
      rewrite andb_true_iff, !bool_decide_eq_true. tauto.
  - apply node_port_is_empty_pure.
  - apply node_port_is_empty_pure.
  - intros Hrp Hself <- Hhit. split.
    + intros He Hpol. eapply can_connect_not_empty; try done.
      by intros [_ ?].
    + intros Hd Hpol. eapply can_connect_resolves; try done. by right.
Qed.

(** C6: a connection that requires no port makes [can_connect] raise
    ConnectionRequiresPortFailure, a member of the connection-failure
    category, which [try_connect] turns into [False]; a required-port value
    that is no port type at all makes [can_connect] raise ValueError, which
    is outside the category and leaves [try_connect] as raised. *)
Theorem required_port_step w :
  (required_port (connection w) = none →
   result (can_connect self w) = fails ConnectionRequiresPortFailure ∧
   is_NodeConnectionFailure ConnectionRequiresPortFailure = true ∧
   result (try_connect self w) = answers false) ∧
  (∀ tag, required_port (connection w) = foreign tag →
   result (can_connect self w) = fails ValueError ∧
   is_NodeConnectionFailure ValueError = false ∧
   try_connect self w = Raises ValueError w).
Proof.
  split; [intros Hrp|intros tag Hrp];
    rewrite try_connect_unfold, can_connect_unfold, Hrp; done.
Qed.

(** ** The claims about commit and teardown *)

(** C5 (as amended): when [can_connect] succeeds with (index, converter),
    [try_connect] returns [True] after all of: attaching the converter to the
    connection whenever that value is truthy (the default converter of a type
    match included; nothing is attached only for a falsy value), recording
    the connection in the node's entry of the required direction at that
    index, binding the candidate node into the connection at that end,
    requesting [move_connections], and, when the connection then has a node
    at its output end, calling that node's [on_data_updated] with the output
    port index. *)
Theorem try_connect_commits w i conv :
  result (can_connect self w) = answers (i, conv) →
  ∃ d n entry,
    required_port (connection w) = dir d ∧
    py_index (length (get_entries d (state w))) i = Some n ∧
    get_entries d (state w) !! n = Some entry ∧
    result (try_connect self w) = answers true ∧
    type_converter (connection (final (try_connect self w)))
      = (if truthy conv then conv else type_converter (connection w)) ∧
    connection (final (try_connect self w))
      = with_end d (Some (_node self)) i none
          (if truthy conv then attach conv (connection w) else connection w) ∧
    state (final (try_connect self w))
      = set_entries d
          (<[n := {[_connection self]} ∪ entry]> (get_entries d (state w)))
          (state w) ∧
    trace (final (try_connect self w))
      = trace (final (can_connect self w))
          ++ move_connections (_node self)
             :: poke (connection (final (try_connect self w))).
Proof.
  intros H.
  destruct (try_connect_after_can_connect _ _ _ H)
    as (d & n & entry & Hrp & Hn & He & Hrun).
  exists d, n, entry. simpl in Hrun. rewrite Hrun. simpl.
  repeat split; try done.
  by destruct d, (truthy conv).
Qed.

(** C8: when [try_connect] succeeds, the end it bound is the one the
    connection required; [disconnect] on that end then runs to completion,
    leaves the connection requiring that direction again with the end
    unbound, and leaves the connection out of the node's entry for that slot;
    if the connection was not in that entry to begin with, the node's port
    state is back to what it was before [try_connect]. *)
Theorem try_connect_disconnect_round_trip w :
  result (try_connect self w) = answers true →
  ∃ d i,
    required_port (connection w) = dir d ∧
    get_node d (connection (final (try_connect self w)))
      = Some (_node self) ∧
    get_port_index d (connection (final (try_connect self w))) = i ∧
    (∃ e1, py_getitem (get_entries d (state (final (try_connect self w)))) i
             = Some e1 ∧ _connection self ∈ e1) ∧
    result (disconnect self d (final (try_connect self w))) = answers PyNone ∧
    required_port
      (connection (final (disconnect self d (final (try_connect self w)))))
      = dir d ∧
    get_node d
      (connection (final (disconnect self d (final (try_connect self w)))))
      = None ∧
    (∃ e2, py_getitem
             (get_entries d
                (state (final (disconnect self d
                                 (final (try_connect self w)))))) i
             = Some e2 ∧ _connection self ∉ e2) ∧
    (∀ e0, py_getitem (get_entries d (state w)) i = Some e0 →
           _connection self ∉ e0 →
           state (final (disconnect self d (final (try_connect self w))))
             = state w).
Proof.
  intros Htrue.
  assert (∃ i conv, result (can_connect self w) = answers (i, conv))
    as (i & conv & H).
  { rewrite try_connect_unfold in Htrue.
    destruct (can_connect self w) as [[i conv] w'|ex w'] eqn:E.
    - by exists i, conv.
    - by destruct (is_NodeConnectionFailure ex). }
  destruct (try_connect_after_can_connect _ _ _ H)
    as (d & n & entry & Hrp & Hn & He & Hrun).
  exists d, i. simpl in Hrun. rewrite Hrun. cbn [final result].
  set (es := get_entries d (state w)) in *.
  set (c' := with_end d _ _ _ _) in *.
  set (w1 := {| state := _; connection := c'; trace := _ |}).
  assert (get_port_index d c' = i) as Hi by (by destruct d).
  assert (py_index (length (get_entries d (state w1)))
            (get_port_index d (connection w1)) = Some n) as Hn1.
  { simpl. by rewrite get_set_entries, length_insert, Hi. }
  assert (get_entries d (state w1) !! n
          = Some ({[_connection self]} ∪ entry)) as He1.
  { simpl. rewrite get_set_entries. apply list_lookup_insert_eq.
    by eapply py_index_lt. }
  rewrite (disconnect_run d w1 n _ Hn1 He1). simpl.
  rewrite !get_set_entries, set_entries_twice, list_insert_insert_eq.
  repeat split; try done.
  - by destruct d.
  - exists ({[_connection self]} ∪ entry).
    split; [by apply py_getitem_setitem|apply entry_add_elem].
  - by destruct d.
  - by destruct d.
  - eexists.
    split; [by apply py_getitem_setitem|apply entry_remove_not_elem].
  - intros e0 Hget Hnotin.
    apply py_getitem_Some in Hget as (n' & Hn' & He0).
    assert (n' = n) as -> by congruence.
    assert (e0 = entry) as -> by congruence.
    rewrite entry_add_remove by done.
    rewrite list_insert_id by done. apply set_get_entries.
Qed.

(** C9: [try_connect] attaches the converter returned by [can_connect]
    exactly when that value is truthy; for a falsy value it still records
    the connection in the node's entry, binds the node at the required end
    and returns [True], the connection's converter being left as it was. *)
Theorem try_connect_attaches_iff_truthy w i conv :
  result (can_connect self w) = answers (i, conv) →
  ∃ d,
    required_port (connection w) = dir d ∧
    result (try_connect self w) = answers true ∧
    (truthy conv = true →
     type_converter (connection (final (try_connect self w))) = conv) ∧
    (truthy conv = false →
     type_converter (connection (final (try_connect self w)))
       = type_converter (connection w)) ∧
    get_node d (connection (final (try_connect self w)))
      = Some (_node self) ∧
    get_port_index d (connection (final (try_connect self w))) = i ∧
    (∃ e, py_getitem (get_entries d (state (final (try_connect self w)))) i
            = Some e ∧ _connection self ∈ e).
Proof.
  intros H.
  destruct (try_connect_after_can_connect _ _ _ H)
    as (d & n & entry & Hrp & Hn & He & Hrun).
  exists d. simpl in Hrun. rewrite Hrun. simpl.
  repeat split; try done.
  - intros ->. by destruct d.
  - intros ->. by destruct d.
  - by destruct d.
  - by destruct d.
  - rewrite get_set_entries. eexists.
    split; [by apply py_getitem_setitem|apply entry_add_elem].
Qed.

(** C10: [node_port_is_empty] returns a boolean only for an index that
    addresses an entry of the table of that direction; for any other index
    (in particular every port index from the table's length on) the lookup
    raises IndexError.  On an occupied slot the data model's
    [port_out_connection_policy] is queried with that index, also when the
    direction is input, where the answer is [False] whatever the policy. *)
Theorem node_port_is_empty_partial d i w :
  (¬ (- Z.of_nat (length (get_entries d (state w))) ≤ i
      < Z.of_nat (length (get_entries d (state w)))) →
   node_port_is_empty self d i w = Raises IndexError w) ∧
  (- Z.of_nat (length (get_entries d (state w))) ≤ i
   < Z.of_nat (length (get_entries d (state w))) →
   ∃ b, result (node_port_is_empty self d i w) = answers b) ∧
  (∀ entry,
     py_getitem (get_entries d (state w)) i = Some entry → entry ≠ ∅ →
     trace (final (node_port_is_empty self d i w))
       = trace w ++ [data_port_out_connection_policy i] ∧
     (d = input → result (node_port_is_empty self d i w) = answers false)).
Proof.
  split; [|split].
  - intros Hout. apply node_port_is_empty_raises. by apply py_getitem_None.
  - intros Hin.
    destruct (py_getitem (get_entries d (state w)) i) as [entry|] eqn:E.
    + rewrite (node_port_is_empty_run _ _ _ _ E).
      case_bool_decide; by eexists.
    + apply py_getitem_None in E. by destruct E.
  - intros entry Hget He.
    rewrite (node_port_is_empty_run _ _ _ _ Hget).
    rewrite bool_decide_eq_false_2 by done.
    split; [done|]. by intros ->.
Qed.

End Properties.

(** * The claims at concrete scenes *)

(** C1: the input end of a connection carrying [T1] dangles over input port
    0 of node B, whose type is [T2], and nothing is registered; all earlier
    checks pass, the registry answers "none found", and [can_connect]
    returns the index with no converter instead of raising. *)
Example can_connect_without_converter :
  can_connect (engine node_B 0 T1 T2 one empty_registry)
    (world vacant dangling_input)
  = Returns (0, None)
      (log [registry_get_type_converter T1 T2] (world vacant dangling_input)).
Proof. reflexivity. Qed.

Lemma try_connect_absorbs_connection_failure_witness :
  result (can_connect (engine node_B 1 T T one empty_registry)
            (world (input_1_taken 9) dangling_input))
    = fails ConnectionPortNotEmptyFailure ∧
  result (try_connect (engine node_B 1 T T one empty_registry)
            (world (input_1_taken 9) dangling_input))
    = answers false ∧
  final (try_connect (engine node_B 1 T T one empty_registry)
           (world (input_1_taken 9) dangling_input))
    = {| state := input_1_taken 9;
         connection := dangling_input;
         trace := [data_port_out_connection_policy 1;
                   logger_debug ConnectionPortNotEmptyFailure;
                   logger_info ConnectionPortNotEmptyFailure] |}.
Proof.
  destruct (try_connect_absorbs_connection_failure
              (engine node_B 1 T T one empty_registry)
              (world (input_1_taken 9) dangling_input)
              ConnectionPortNotEmptyFailure eq_refl eq_refl)
    as (_ & Hrun & _).
  split; [reflexivity|]. rewrite Hrun. split; reflexivity.
Defined.

Lemma can_connect_check_order_witness :
  result (can_connect (engine node_A 1 T T one empty_registry)
            (world vacant dangling_input))
    = fails ConnectionSelfFailure ∧
  result (can_connect (engine node_A 1 T T one empty_registry)
            (world (input_1_taken 9) dangling_input))
    = fails ConnectionSelfFailure ∧
  result (can_connect (engine node_A INVALID T T one empty_registry)
            (world vacant dangling_input))
    = fails ConnectionSelfFailure.
Proof.
  split; [|split].
  - apply (proj1 (proj2 (can_connect_check_order
                           (engine node_A 1 T T one empty_registry)
                           (world vacant dangling_input))
                   input eq_refl)).
    reflexivity.
  - apply (proj1 (proj2 (can_connect_check_order
                           (engine node_A 1 T T one empty_registry)
                           (world (input_1_taken 9) dangling_input))
                   input eq_refl)).
    reflexivity.
  - apply (proj1 (proj2 (can_connect_check_order
                           (engine node_A INVALID T T one empty_registry)
                           (world vacant dangling_input))
                   input eq_refl)).
    reflexivity.
Defined.

Lemma node_port_is_empty_occupancy_witness :
  result (node_port_is_empty (engine node_A 2 T T one empty_registry)
            output 2 (world (output_2_taken 9) dangling_output))
    = answers false ∧
  result (can_connect (engine node_A 2 T T one empty_registry)
            (world (output_2_taken 9) dangling_output))
    = fails ConnectionPortNotEmptyFailure ∧
  result (can_connect (engine node_A 2 T T many empty_registry)
            (world (output_2_taken 9) dangling_output))
    = answers (2, Some DefaultTypeConverter).
Proof.
  split; [reflexivity|]. split.
  - destruct (node_port_is_empty_occupancy
                (engine node_A 2 T T one empty_registry) output 2
                (world (output_2_taken 9) dangling_output) {[9%nat]} eq_refl)
      as (_ & _ & _ & Hcan).
    apply Hcan; done.
  - destruct (node_port_is_empty_occupancy
                (engine node_A 2 T T many empty_registry) output 2
                (world (output_2_taken 9) dangling_output) {[9%nat]} eq_refl)
      as (_ & _ & _ & Hcan).
    apply Hcan; done.
Defined.

(** C5, counterexample: the connection's type and the port's type are both
    [T]; [can_connect] returns the default converter, the connection has no
    converter before the call, and after [try_connect] it carries the default
    converter: attaching was not skipped for the identity converter. *)
Lemma identity_converter_is_attached :
  result (can_connect (engine node_B 1 T T one empty_registry)
            (world vacant dangling_input))
    = answers (1, Some DefaultTypeConverter) ∧
  type_converter (connection (world vacant dangling_input)) = None ∧
  result (try_connect (engine node_B 1 T T one empty_registry)
            (world vacant dangling_input))
    = answers true ∧
  type_converter
    (connection (final (try_connect (engine node_B 1 T T one empty_registry)
                          (world vacant dangling_input))))
    = Some DefaultTypeConverter.
Proof. repeat split. Qed.

Lemma try_connect_commits_witness :
  result (can_connect (engine node_B 0 T1 T2 one registry_T1_T2)
            (world vacant dangling_input))
    = answers (0, Some (registered 0)) ∧
  try_connect (engine node_B 0 T1 T2 one registry_T1_T2)
    (world vacant dangling_input)
  = Returns true
      {| state := {| in_connections := [{[the_connection]}; ∅; ∅];
                     out_connections := [∅; ∅; ∅] |};
         connection := {| in_node := Some node_B; in_port_index := 0;
                          out_node := Some node_A; out_port_index := 2;
                          required_port := none;
                          type_converter := Some (registered 0) |};
         trace := [registry_get_type_converter T1 T2;
                   move_connections node_B;
                   on_data_updated node_A 2] |}.
Proof.
  split; [reflexivity|].
  destruct (try_connect_commits
              (engine node_B 0 T1 T2 one registry_T1_T2)
              (world vacant dangling_input) 0 (Some (registered 0)) eq_refl)
    as (d & n & entry & Hrp & Hn & He & Hres & _ & Hc & Hs & Ht).
  injection Hrp as <-. vm_compute in Hn. injection Hn as <-.
  vm_compute in He. injection He as <-.
  destruct (try_connect _ _) as [b w'|ex w']; [|done].
  simpl in *. injection Hres as ->. destruct w'. simpl in *. subst.
  vm_compute. reflexivity.
Defined.

Lemma required_port_step_witness :
  (result (can_connect (engine node_B 1 T T one empty_registry)
             (world vacant bound_both))
     = fails ConnectionRequiresPortFailure ∧
   result (try_connect (engine node_B 1 T T one empty_registry)
             (world vacant bound_both))
     = answers false) ∧
  (result (can_connect (engine node_B 1 T T one empty_registry)
             (world vacant corrupted))
     = fails ValueError ∧
   result (try_connect (engine node_B 1 T T one empty_registry)
             (world vacant corrupted))
     = fails ValueError).
Proof.
  split.
  - destruct (proj1 (required_port_step
                       (engine node_B 1 T T one empty_registry)
                       (world vacant bound_both)) eq_refl)
      as (Hcan & _ & Htry).
    exact (conj Hcan Htry).
  - destruct (proj2 (required_port_step
                       (engine node_B 1 T T one empty_registry)
                       (world vacant corrupted)) 0%nat eq_refl)
      as (Hcan & _ & Htry).
    split; [exact Hcan|]. by rewrite Htry.
Defined.

(** C7: the connection is bound at input port 1 of node B and recorded in
    that entry; [disconnect] removes it from the entry, propagates empty
    data, clears that end, marks it as requiring input and grabs the mouse,
    and then ends without a return statement: the caller receives [None],
    not a boolean. *)
Example disconnect_returns_None :
  disconnect (engine node_B 1 T T one empty_registry) input
    (world (input_1_taken the_connection) bound_both)
  = Returns PyNone
      {| state := vacant;
         connection := dangling_input;
         trace := [propagate_empty_data the_connection;
                   grabMouse the_connection] |}.
Proof. vm_compute. reflexivity. Qed.

Lemma try_connect_disconnect_round_trip_witness :
  result (try_connect (engine node_B 1 T T one empty_registry)
            (world vacant dangling_input))
    = answers true ∧
  required_port
    (connection
       (final (disconnect (engine node_B 1 T T one empty_registry) input
                 (final (try_connect (engine node_B 1 T T one empty_registry)
                           (world vacant dangling_input))))))
    = dir input ∧
  state
    (final (disconnect (engine node_B 1 T T one empty_registry) input
              (final (try_connect (engine node_B 1 T T one empty_registry)
                        (world vacant dangling_input)))))
    = vacant.
Proof.
  split; [reflexivity|].
  destruct (try_connect_disconnect_round_trip
              (engine node_B 1 T T one empty_registry)
              (world vacant dangling_input) eq_refl)
    as (d & i & Hrp & _ & Hi & _ & _ & Hreq & _ & _ & Hstate).
  injection Hrp as <-. vm_compute in Hi. subst i.
  split; [exact Hreq|].
  apply (Hstate ∅); [reflexivity|]. apply not_elem_of_empty.
Defined.

Lemma try_connect_attaches_iff_truthy_witness :
  id T1 ≠ id T2 ∧
  result (can_connect (engine node_B 0 T1 T2 one empty_registry)
            (world vacant dangling_input))
    = answers (0, None) ∧
  result (try_connect (engine node_B 0 T1 T2 one empty_registry)
            (world vacant dangling_input))
    = answers true ∧
  type_converter
    (connection (final (try_connect (engine node_B 0 T1 T2 one empty_registry)
                          (world vacant dangling_input))))
    = None ∧
  get_node input
    (connection (final (try_connect (engine node_B 0 T1 T2 one empty_registry)
                          (world vacant dangling_input))))
    = Some node_B.
Proof.
  split; [done|]. split; [reflexivity|].
  destruct (try_connect_attaches_iff_truthy
              (engine node_B 0 T1 T2 one empty_registry)
              (world vacant dangling_input) 0 None eq_refl)
    as (d & Hrp & Htrue & _ & Hkept & Hnode & _).
  injection Hrp as <-.
  split; [exact Htrue|]. split; [exact (Hkept eq_refl)|exact Hnode].
Defined.

Lemma node_port_is_empty_partial_witness :
  node_port_is_empty (engine node_B 1 T T many empty_registry) input 3
    (world vacant dangling_input)
  = Raises IndexError (world vacant dangling_input) ∧
  (∃ b, result (node_port_is_empty (engine node_B 1 T T many empty_registry)
                  input 2 (world vacant dangling_input)) = answers b) ∧
  trace (final (node_port_is_empty (engine node_B 1 T T many empty_registry)
                  input 1 (world (input_1_taken 9) dangling_input)))
    = [data_port_out_connection_policy 1] ∧
  result (node_port_is_empty (engine node_B 1 T T many empty_registry)
            input 1 (world (input_1_taken 9) dangling_input))
    = answers false.
Proof.
  split; [|split].
  - apply (proj1 (node_port_is_empty_partial
                    (engine node_B 1 T T many empty_registry) input 3
                    (world vacant dangling_input))).
    simpl. lia.
  - apply (proj1 (proj2 (node_port_is_empty_partial
                           (engine node_B 1 T T many empty_registry) input 2
                           (world vacant dangling_input)))).
    simpl. lia.
  - destruct (proj2 (proj2 (node_port_is_empty_partial
                              (engine node_B 1 T T many empty_registry)
                              input 1
                              (world (input_1_taken 9) dangling_input)))
                {[9%nat]} eq_refl) as [Htrace Hfalse].
    + by apply non_empty_singleton_L.
    + split; [exact Htrace|exact (Hfalse eq_refl)].
Defined.

(** * Further properties of the engine *)

Lemma get_entries_set_entries_ne d d' es st :
  d' ≠ d → get_entries d' (set_entries d es st) = get_entries d' st.
Proof. by destruct d, d'. Qed.

Lemma entry_remove_add (c : ConnId) (entry : gset ConnId) :
  c ∈ entry → {[c]} ∪ entry ∖ {[c]} = entry.
Proof.
  intros Hin. apply set_eq. intros x.
  rewrite elem_of_union, elem_of_difference, elem_of_singleton. split.
  - by intros [->|[? ?]].
  - intros Hx. destruct (decide (x = c)) as [->|Hne]; [by left|by right].
Qed.

Lemma opposite_port_ne d : opposite_port d ≠ d.
Proof. by destruct d. Qed.

Lemma with_end_opposite d n i rp c :
  get_node (opposite_port d) (with_end d n i rp c)
    = get_node (opposite_port d) c ∧
  get_port_index (opposite_port d) (with_end d n i rp c)
    = get_port_index (opposite_port d) c ∧
  type_converter (with_end d n i rp c) = type_converter c.
Proof. by destruct d. Qed.

Section Coverage.
Context {QPointF QTransform : Type}.
Variable self : @NodeConnectionInteraction QPointF QTransform.

(** The two ways a [try_connect] call can go, by the outcome of the
    [can_connect] call it starts with. *)
Lemma try_connect_cases w :
  (∃ i conv, result (can_connect self w) = answers (i, conv) ∧
             result (try_connect self w) = answers true) ∨
  (∃ ex, result (can_connect self w) = fails ex ∧
         try_connect self w =
           if is_NodeConnectionFailure ex
           then Returns false
                  (log [logger_debug ex; logger_info ex]
                     (final (can_connect self w)))
           else Raises ex (final (can_connect self w))).
Proof.
  destruct (can_connect self w) as [[i conv] w'|ex w'] eqn:E.
  - left. exists i, conv. split; [done|].
    assert (result (can_connect self w) = answers (i, conv)) as H
      by (by rewrite E).
    destruct (try_connect_after_can_connect self _ _ _ H)
      as (d & n & entry & _ & _ & _ & Hrun).
    simpl in Hrun. by rewrite Hrun.
  - right. exists ex. split; [done|].
    by rewrite try_connect_unfold, E.
Qed.

(** X1: the outcome of [try_connect] mirrors that of [can_connect]: it
    returns [True] exactly when [can_connect] returned, [False] exactly when
    [can_connect] raised an exception of the connection-failure category,
    and it raises exactly the exceptions of [can_connect] that lie outside
    the category; a connection failure never reaches its caller. *)
Theorem try_connect_outcome w :
  (result (try_connect self w) = answers true ↔
   ∃ i conv, result (can_connect self w) = answers (i, conv)) ∧
  (result (try_connect self w) = answers false ↔
   ∃ ex, result (can_connect self w) = fails ex ∧
         is_NodeConnectionFailure ex = true) ∧
  (∀ ex, result (try_connect self w) = fails ex ↔
         result (can_connect self w) = fails ex ∧
         is_NodeConnectionFailure ex = false).
Proof.
  destruct (try_connect_cases w)
    as [(i & conv & Hcan & Htry)|(ex & Hcan & Htry)].
  - rewrite Htry, Hcan. split; [|split].
    + split; [by exists i, conv|done].
    + split; [done|]. by intros (ex & ? & _).
    + intros ex. split; [done|]. by intros [? _].
  - rewrite Htry, Hcan.
    destruct (is_NodeConnectionFailure ex) eqn:Hcat; simpl.
    + split; [|split].
      * split; [done|]. by intros (? & ? & ?).
      * split; [by exists ex|done].
      * intros ex'. split; [done|]. intros [[= <-] ?]. congruence.
    + split; [|split].
      * split; [done|]. by intros (? & ? & ?).
      * split; [done|]. intros (ex' & [= <-] & ?). congruence.
      * intros ex'. split; [by intros [= <-]|]. by intros [[= <-] _].
Qed.

(** X2: whenever [try_connect] ends in anything but [True] (a [False]
    return or an exception passing through), the connection and the node's
    port state are exactly what they were before the call. *)
Theorem try_connect_all_or_nothing w :
  result (try_connect self w) ≠ answers true →
  state (final (try_connect self w)) = state w ∧
  connection (final (try_connect self w)) = connection w.
Proof.
  intros Hnot.
  destruct (try_connect_cases w)
    as [(i & conv & _ & Htry)|(ex & _ & Htry)]; [done|].
  rewrite Htry.
  destruct (is_NodeConnectionFailure ex); apply can_connect_pure.
Qed.

(** X3: what a returned pair of [can_connect] guarantees: the connection
    requires a direction, the index is the one the hit-test answered, it is
    not the INVALID sentinel, it addresses an entry of the node's table of
    that direction, the opposite end is not bound to the candidate node, and
    the converter is the one the type resolution gives for that port. *)
Theorem can_connect_postcondition w i conv :
  result (can_connect self w) = answers (i, conv) →
  ∃ d,
    required_port (connection w) = dir d ∧
    i = hit_index self d ∧
    i ≠ INVALID ∧
    - Z.of_nat (length (get_entries d (state w))) ≤ i
      < Z.of_nat (length (get_entries d (state w))) ∧
    get_node (opposite_port d) (connection w) ≠ Some (_node self) ∧
    type_resolution self d i = answers (i, conv).
Proof.
  intros H.
  destruct (can_connect_returns self _ _ _ H)
    as (d & entry & Hrp & Hself & -> & Hhit & Hget & Hvacant).
  exists d. repeat split; try done.
  - destruct (decide (- Z.of_nat (length (get_entries d (state w)))
                      ≤ hit_index self d)) as [?|Hout]; [done|].
    assert (py_getitem (get_entries d (state w)) (hit_index self d) = None)
      as Hnone by (apply py_getitem_None; lia).
    congruence.
  - destruct (decide (hit_index self d
                      < Z.of_nat (length (get_entries d (state w)))))
      as [?|Hout]; [done|].
    assert (py_getitem (get_entries d (state w)) (hit_index self d) = None)
      as Hnone by (apply py_getitem_None; lia).
    congruence.
  - rewrite <- H. symmetry. by eapply can_connect_resolves.
Qed.

(** X4: the only external calls [can_connect] makes are queries: the out
    policy of the hit port, and the registry lookup, oriented by the required
    direction; the registry is consulted only when the two type identifiers
    differ.  It never logs and never asks for geometry or data updates. *)
Theorem can_connect_only_queries w :
  ∃ qs,
    trace (final (can_connect self w)) = trace w ++ qs ∧
    ∀ e, e ∈ qs →
      ∃ d,
        required_port (connection w) = dir d ∧
        (e = data_port_out_connection_policy (hit_index self d) ∨
         id (connection_data_type self (opposite_port d))
           ≠ id (data_type self d (hit_index self d)) ∧
         e = registry_get_type_converter
               (oriented_query d
                  (connection_data_type self (opposite_port d))
                  (data_type self d (hit_index self d))).1
               (oriented_query d
                  (connection_data_type self (opposite_port d))
                  (data_type self d (hit_index self d))).2).
Proof.
  assert (∀ w0 : World, ∃ qs : list Event,
            trace w0 = trace w0 ++ qs ∧
            ∀ e, e ∈ qs → False) as quiet.
  { intros w0. exists []. split; [by rewrite app_nil_r|].
    by intros e ?%elem_of_nil. }
  rewrite can_connect_unfold.
  destruct (required_port (connection w)) as [|d|tag] eqn:Hrp.
  1, 3: destruct (quiet w) as (qs & ? & Hno); exists qs;
        split; [done|intros e He; destruct (Hno e He)].
  case_bool_decide.
  { destruct (quiet w) as (qs & ? & Hno); exists qs.
    split; [done|intros e He; destruct (Hno e He)]. }
  case_bool_decide.
  { destruct (quiet w) as (qs & ? & Hno); exists qs.
    split; [done|intros e He; destruct (Hno e He)]. }
  destruct (py_getitem (get_entries d (state w)) (hit_index self d))
    as [entry|] eqn:E.
  2: { rewrite (node_port_is_empty_raises self _ _ _ E).
       destruct (quiet w) as (qs & ? & Hno); exists qs.
       split; [done|intros e He; destruct (Hno e He)]. }
  rewrite (node_port_is_empty_run self _ _ _ _ E).
  case_bool_decide as Hempty; simpl.
  - case_bool_decide as Hid.
    + destruct (quiet w) as (qs & ? & Hno); exists qs.
      split; [done|intros e He; destruct (Hno e He)].
    + eexists [_]. split.
      * by destruct (get_type_converter _ _ _).
      * intros e ->%list_elem_of_singleton. exists d. split; [done|by right].
  - destruct (bool_decide (d = output)
              && bool_decide (port_out_connection_policy self
                                (hit_index self d) = many)); simpl.
    + case_bool_decide as Hid.
      * eexists [_]. split; [done|].
        intros e ->%list_elem_of_singleton. exists d. split; [done|by left].
      * eexists [_; _]. split.
        { destruct (get_type_converter _ _ _); simpl;
            by rewrite <- app_assoc. }
        intros e [->|He]%elem_of_cons; exists d; (split; [done|]).
        { by left. }
        apply list_elem_of_singleton in He as ->. by right.
    + eexists [_]. split; [done|].
      intros e ->%list_elem_of_singleton. exists d. split; [done|by left].
Qed.

(** X5: a hit-test answer that is neither INVALID nor an index of the
    node's entry table is not reported as a connection failure: the lookup in
    [node_port_is_empty] raises IndexError, [can_connect] passes it on, and
    [try_connect] neither absorbs nor logs it; the world is untouched. *)
Theorem can_connect_unaddressable_hit w d :
  required_port (connection w) = dir d →
  get_node (opposite_port d) (connection w) ≠ Some (_node self) →
  hit_index self d ≠ INVALID →
  ¬ (- Z.of_nat (length (get_entries d (state w))) ≤ hit_index self d
     < Z.of_nat (length (get_entries d (state w)))) →
  can_connect self w = Raises IndexError w ∧
  try_connect self w = Raises IndexError w.
Proof.
  intros Hrp Hself Hhit Hout.
  assert (can_connect self w = Raises IndexError w) as Hcan.
  { rewrite can_connect_unfold, Hrp.
    rewrite !bool_decide_eq_false_2 by done.
    rewrite node_port_is_empty_raises; [done|]. by apply py_getitem_None. }
  split; [done|]. by rewrite try_connect_unfold, Hcan.
Qed.

(** X6: a connection that [try_connect] has just bound requires no port any
    more, so calling [try_connect] again on the same engine changes nothing:
    it logs ConnectionRequiresPortFailure and returns [False]. *)
Theorem try_connect_twice w :
  result (try_connect self w) = answers true →
  try_connect self (final (try_connect self w)) =
    Returns false
      (log [logger_debug ConnectionRequiresPortFailure;
            logger_info ConnectionRequiresPortFailure]
         (final (try_connect self w))).
Proof.
  intros Htrue.
  destruct (try_connect_cases w)
    as [(i & conv & Hcan & _)|(ex & _ & Htry)].
  2: { rewrite Htry in Htrue. by destruct (is_NodeConnectionFailure ex). }
  destruct (try_connect_after_can_connect self _ _ _ Hcan)
    as (d & n & entry & _ & _ & _ & Hrun).
  simpl in Hrun. rewrite Hrun. cbn [final].
  rewrite try_connect_unfold, can_connect_unfold. simpl.
  by destruct d.
Qed.

(** X7: the round trip the other way: when the connection is bound at end
    [d] to the engine's node and recorded in that slot, the dangling end
    stays over the same port after [disconnect], and the slot without the
    connection is vacant (or an output with policy many), a following
    [try_connect] succeeds and puts the node's port state and both ends of
    the connection back as they were. *)
Theorem disconnect_try_connect_round_trip w d i entry conv :
  get_node d (connection w) = Some (_node self) →
  get_port_index d (connection w) = i →
  py_getitem (get_entries d (state w)) i = Some entry →
  _connection self ∈ entry →
  entry ∖ {[_connection self]} = ∅ ∨
    d = output ∧ port_out_connection_policy self i = many →
  get_node (opposite_port d) (connection w) ≠ Some (_node self) →
  hit_index self d = i →
  i ≠ INVALID →
  type_resolution self d i = answers (i, conv) →
  result (disconnect self d w) = answers PyNone ∧
  result (try_connect self (final (disconnect self d w))) = answers true ∧
  state (final (try_connect self (final (disconnect self d w)))) = state w ∧
  get_node d
    (connection (final (try_connect self (final (disconnect self d w)))))
    = get_node d (connection w) ∧
  get_port_index d
    (connection (final (try_connect self (final (disconnect self d w)))))
    = get_port_index d (connection w) ∧
  get_node (opposite_port d)
    (connection (final (try_connect self (final (disconnect self d w)))))
    = get_node (opposite_port d) (connection w) ∧
  get_port_index (opposite_port d)
    (connection (final (try_connect self (final (disconnect self d w)))))
    = get_port_index (opposite_port d) (connection w).
Proof.
  intros Hbound Hi Hget Hin Hvacant Hself Hhit Hvalid Hres.
  apply py_getitem_Some in Hget as (n & Hn & He).
  assert (py_index (length (get_entries d (state w)))
            (get_port_index d (connection w)) = Some n) as Hn0
    by (by rewrite Hi).
  rewrite (disconnect_run self d w n entry Hn0 He). cbn [final result].
  set (w1 := {| state := _; connection := _; trace := _ |}).
  assert (result (can_connect self w1) = answers (i, conv)) as Hcan.
  { rewrite <- Hres, <- Hhit.
    apply (can_connect_resolves self w1 d (entry ∖ {[_connection self]})).
    - by destruct d.
    - simpl. by destruct (with_end_opposite d None INVALID (dir d)
                            (connection w)) as (-> & _ & _).
    - by rewrite Hhit.
    - simpl. rewrite get_set_entries, Hhit. by apply py_getitem_setitem.
    - by rewrite Hhit. }
  destruct (try_connect_after_can_connect self _ _ _ Hcan)
    as (d' & n' & entry' & Hrp' & Hn' & He' & Hrun).
  assert (d' = d) as -> by (destruct d; simpl in Hrp'; congruence).
  simpl in Hn', He'. rewrite get_set_entries in Hn', He'.
  rewrite length_insert in Hn'.
  assert (n' = n) as -> by congruence.
  rewrite list_lookup_insert_eq in He' by (by eapply py_index_lt).
  injection He' as <-.
  simpl in Hrun. rewrite Hrun. cbn [final result state connection].
  split; [done|]. split; [done|]. split.
  { rewrite get_set_entries, set_entries_twice, list_insert_insert_eq.
    rewrite entry_remove_add by done.
    rewrite list_insert_id by done. apply set_get_entries. }
  rewrite <- Hbound, Hi.
  destruct d, (truthy conv); simpl; by rewrite ?Hbound.
Qed.

(** X8: [try_connect] never evicts a connection and never reshapes the
    tables: whatever its outcome, every addressable entry of the node's port
    state afterwards holds all the connections it held before, and at most
    the engine's connection in addition; the opposite end of the connection
    keeps its node and index. *)
Theorem try_connect_keeps_occupants w :
  (∀ d j e,
     py_getitem (get_entries d (state w)) j = Some e →
     ∃ e',
       py_getitem (get_entries d (state (final (try_connect self w)))) j
         = Some e' ∧
       e ⊆ e' ∧ e' ⊆ {[_connection self]} ∪ e) ∧
  (∀ d, required_port (connection w) = dir d →
     get_node (opposite_port d) (connection (final (try_connect self w)))
       = get_node (opposite_port d) (connection w) ∧
     get_port_index (opposite_port d)
       (connection (final (try_connect self w)))
       = get_port_index (opposite_port d) (connection w)).
Proof.
  destruct (try_connect_cases w)
    as [(i & conv & Hcan & _)|(ex & _ & Htry)].
  - destruct (try_connect_after_can_connect self _ _ _ Hcan)
      as (d0 & n & entry & Hrp & Hn & He & Hrun).
    simpl in Hrun. rewrite Hrun. cbn [final state connection]. split.
    + intros d j e Hget.
      destruct (decide (d = d0)) as [->|Hne].
      2: { exists e. rewrite get_entries_set_entries_ne by done.
           split; [done|]. split; [done|]. apply union_subseteq_r. }
      rewrite get_set_entries.
      apply py_getitem_Some in Hget as (m & Hm & Hem).
      destruct (decide (m = n)) as [->|Hmn].
      * exists ({[_connection self]} ∪ e).
        assert (e = entry) as -> by congruence.
        split; [|split; [apply union_subseteq_r|done]].
        apply py_getitem_Some. exists n. rewrite length_insert.
        split; [done|]. apply list_lookup_insert_eq. by eapply py_index_lt.
      * exists e. split; [|split; [done|apply union_subseteq_r]].
        apply py_getitem_Some. exists m. rewrite length_insert.
        split; [done|]. by rewrite list_lookup_insert_ne.
    + intros d Hd. assert (d = d0) as -> by congruence.
      destruct d0, (truthy conv); done.
  - rewrite Htry.
    assert (state (final (if is_NodeConnectionFailure ex
                          then Returns false
                                 (log [logger_debug ex; logger_info ex]
                                    (final (can_connect self w)))
                          else Raises ex (final (can_connect self w))))
            = state w ∧
            connection (final (if is_NodeConnectionFailure ex
                               then Returns false
                                      (log [logger_debug ex; logger_info ex]
                                         (final (can_connect self w)))
                               else Raises ex (final (can_connect self w))))
            = connection w) as [-> ->]
      by (destruct (is_NodeConnectionFailure ex); apply can_connect_pure).
    split; [|done].
    intros d j e Hget. exists e. split; [done|]. split; [done|].
    apply union_subseteq_r.
Qed.

(** X9: [disconnect] never evicts another connection and touches nothing
    but the named end: whatever its outcome, every addressable entry
    afterwards holds what it held before, except possibly the engine's
    connection; the opposite end of the connection keeps its node and index,
    and the attached type converter stays attached. *)
Theorem disconnect_keeps_others d w :
  (∀ d' j e,
     py_getitem (get_entries d' (state w)) j = Some e →
     ∃ e',
       py_getitem (get_entries d' (state (final (disconnect self d w)))) j
         = Some e' ∧
       e ∖ {[_connection self]} ⊆ e' ∧ e' ⊆ e) ∧
  get_node (opposite_port d) (connection (final (disconnect self d w)))
    = get_node (opposite_port d) (connection w) ∧
  get_port_index (opposite_port d)
    (connection (final (disconnect self d w)))
    = get_port_index (opposite_port d) (connection w) ∧
  type_converter (connection (final (disconnect self d w)))
    = type_converter (connection w).
Proof.
  destruct (py_index (length (get_entries d (state w)))
              (get_port_index d (connection w))) as [n|] eqn:Hn.
  2: { rewrite (disconnect_raises self d w Hn). simpl.
       split; [|done]. intros d' j e Hget. exists e.
       split; [done|]. split; [apply subseteq_difference_l|]; done. }
  destruct (lookup_lt_is_Some_2 (get_entries d (state w)) n
              (py_index_lt _ _ _ Hn)) as [entry He].
  rewrite (disconnect_run self d w n entry Hn He).
  cbn [final state connection]. split.
  - intros d' j e Hget.
    destruct (decide (d' = d)) as [->|Hne].
    2: { exists e. rewrite get_entries_set_entries_ne by done.
         split; [done|]. split; [apply subseteq_difference_l|]; done. }
    rewrite get_set_entries.
    apply py_getitem_Some in Hget as (m & Hm & Hem).
    destruct (decide (m = n)) as [->|Hmn].
    + exists (e ∖ {[_connection self]}).
      assert (e = entry) as -> by congruence.
      split; [|split; [done|by apply subseteq_difference_l]].
      apply py_getitem_Some. exists n. rewrite length_insert.
      split; [done|]. apply list_lookup_insert_eq. by eapply py_index_lt.
    + exists e. split; [|split; [apply subseteq_difference_l|]; done].
      apply py_getitem_Some. exists m. rewrite length_insert.
      split; [done|]. by rewrite list_lookup_insert_ne.
  - by destruct d.
Qed.

(** The outcome of [can_connect] depends on the node's port state and on
    the connection only, not on the calls made before. *)
Lemma can_connect_agree w w' :
  state w = state w' → connection w = connection w' →
  result (can_connect self w) = result (can_connect self w').
Proof.
  intros Hs Hc. rewrite !can_connect_unfold, Hc.
  destruct (required_port (connection w')) as [|d|tag]; try done.
  repeat (case_bool_decide; [done|]).
  destruct (py_getitem (get_entries d (state w')) (hit_index self d))
    as [entry|] eqn:E.
  - rewrite (node_port_is_empty_run self d _ w' entry E).
    rewrite (node_port_is_empty_run self d _ w entry) by (by rewrite Hs).
    case_bool_decide; simpl.
    + case_bool_decide; [done|]. by destruct (get_type_converter _ _ _).
    + destruct (_ && _); simpl; [|done].
      case_bool_decide; [done|]. by destruct (get_type_converter _ _ _).
  - rewrite (node_port_is_empty_raises self d _ w' E).
    by rewrite (node_port_is_empty_raises self d _ w) by (by rewrite Hs).
Qed.

(** X10: a [can_connect] call made beforehand, as a preview, has no bearing
    on [try_connect]: run on the world the preview left, [try_connect] ends
    with the same value or exception, the same port state and the same
    connection as when run directly. *)
Theorem try_connect_after_preview w :
  result (try_connect self (final (can_connect self w)))
    = result (try_connect self w) ∧
  state (final (try_connect self (final (can_connect self w))))
    = state (final (try_connect self w)) ∧
  connection (final (try_connect self (final (can_connect self w))))
    = connection (final (try_connect self w)).
Proof.
  pose proof (can_connect_pure self w) as [Hs Hc].
  pose proof (can_connect_agree (final (can_connect self w)) w Hs Hc) as Hagree.
  set (w' := final (can_connect self w)) in *.
  destruct (try_connect_cases w)
    as [(i & conv & Hcan & _)|(ex & Hcan & Htry)].
  - assert (result (can_connect self w') = answers (i, conv)) as Hcan'
      by congruence.
    destruct (try_connect_after_can_connect self _ _ _ Hcan)
      as (d & n & entry & Hrp & Hn & He & Hrun).
    destruct (try_connect_after_can_connect self _ _ _ Hcan')
      as (d' & n' & entry' & Hrp' & Hn' & He' & Hrun').
    rewrite Hs, Hc in *.
    assert (d' = d) as -> by congruence.
    assert (n' = n) as -> by congruence.
    assert (entry' = entry) as -> by congruence.
    simpl in Hrun, Hrun'. by rewrite Hrun, Hrun'.
  - assert (result (can_connect self w') = fails ex) as Hcan' by congruence.
    destruct (try_connect_cases w')
      as [(i & conv & Hcan'' & _)|(ex' & Hcan'' & Htry')]; [congruence|].
    assert (ex' = ex) as -> by congruence.
    rewrite Htry, Htry'.
    pose proof (can_connect_pure self w') as [Hs' Hc'].
    destruct (is_NodeConnectionFailure ex); simpl; by rewrite Hs', Hc'.
Qed.

(** X11: [disconnect] does not ask which node an end is bound to.  After
    [try_connect] has bound the required end, disconnecting the opposite end
    through the same engine (the sequence of the smoke test) completes as
    soon as that end's index addresses an entry of this node's table: the
    connection then requires the opposite direction while still bound to the
    engine's node, so the engine's own [can_connect] reports
    ConnectionSelfFailure and [try_connect] returns [False]. *)
Theorem disconnect_opposite_end w d :
  result (try_connect self w) = answers true →
  required_port (connection w) = dir d →
  - Z.of_nat (length (get_entries (opposite_port d) (state w)))
    ≤ get_port_index (opposite_port d) (connection w)
    < Z.of_nat (length (get_entries (opposite_port d) (state w))) →
  result (disconnect self (opposite_port d) (final (try_connect self w)))
    = answers PyNone ∧
  required_port
    (connection (final (disconnect self (opposite_port d)
                          (final (try_connect self w)))))
    = dir (opposite_port d) ∧
  get_node d
    (connection (final (disconnect self (opposite_port d)
                          (final (try_connect self w)))))
    = Some (_node self) ∧
  result (can_connect self
            (final (disconnect self (opposite_port d)
                      (final (try_connect self w)))))
    = fails ConnectionSelfFailure ∧
  result (try_connect self
            (final (disconnect self (opposite_port d)
                      (final (try_connect self w)))))
    = answers false.
Proof.
  intros Htrue Hrp Haddr.
  destruct (try_connect_cases w)
    as [(i & conv & Hcan & _)|(ex & _ & Htry)].
  2: { rewrite Htry in Htrue. by destruct (is_NodeConnectionFailure ex). }
  destruct (try_connect_after_can_connect self _ _ _ Hcan)
    as (d' & n & entry & Hrp' & Hn & He & Hrun).
  assert (d' = d) as -> by congruence.
  simpl in Hrun. rewrite Hrun. cbn [final].
  set (c' := with_end d _ _ _ _) in *.
  set (w1 := {| state := _; connection := c'; trace := _ |}).
  destruct (py_index (length (get_entries (opposite_port d) (state w)))
              (get_port_index (opposite_port d) (connection w)))
    as [m|] eqn:Hm.
  2: { apply py_index_None in Hm. by destruct Hm. }
  destruct (lookup_lt_is_Some_2 (get_entries (opposite_port d) (state w)) m
              (py_index_lt _ _ _ Hm)) as [e Hem].
  assert (get_entries (opposite_port d) (state w1)
          = get_entries (opposite_port d) (state w)) as Hes.
  { simpl. apply get_entries_set_entries_ne, opposite_port_ne. }
  assert (get_port_index (opposite_port d) (connection w1)
          = get_port_index (opposite_port d) (connection w)) as Hidx.
  { simpl. subst c'. by destruct d, (truthy conv). }
  rewrite (disconnect_run self (opposite_port d) w1 m e)
    by (by rewrite Hes, ?Hidx).
  cbn [final result connection].
  assert (get_node d (with_end (opposite_port d) None INVALID
                        (dir (opposite_port d)) c') = Some (_node self))
    as Hnode by (subst c'; by destruct d).
  split; [done|]. split; [by destruct d|]. split; [done|].
  assert (∀ st tr,
    can_connect self
      {| state := st;
         connection := with_end (opposite_port d) None INVALID
                         (dir (opposite_port d)) c';
         trace := tr |}
    = Raises ConnectionSelfFailure
        {| state := st;
           connection := with_end (opposite_port d) None INVALID
                           (dir (opposite_port d)) c';
           trace := tr |}) as Hself.
  { intros st tr. rewrite can_connect_unfold. cbn [connection].
    assert (required_port (with_end (opposite_port d) None INVALID
                             (dir (opposite_port d)) c')
            = dir (opposite_port d)) as -> by (by destruct d).
    rewrite bool_decide_eq_true_2; [done|].
    by destruct d. }
  split; [by rewrite Hself|].
  by rewrite try_connect_unfold, Hself.
Qed.

(** X12: a port bound by [try_connect] is closed to other connections: for
    any other engine on the same node whose dangling end of the same
    direction hits the same index, [can_connect] raises
    ConnectionPortNotEmptyFailure on the port state [try_connect] left,
    unless the port is an output whose policy is many. *)
Theorem bound_port_rejects_others
    (other : @NodeConnectionInteraction QPointF QTransform) w w2 d :
  result (try_connect self w) = answers true →
  required_port (connection w) = dir d →
  state w2 = state (final (try_connect self w)) →
  required_port (connection w2) = dir d →
  get_node (opposite_port d) (connection w2) ≠ Some (_node other) →
  hit_index other d = hit_index self d →
  ¬ (d = output ∧
     port_out_connection_policy other (hit_index other d) = many) →
  result (can_connect other w2) = fails ConnectionPortNotEmptyFailure.
Proof.
  intros Htrue Hrp Hs2 Hrp2 Hself2 Hhit Hpol.
  destruct (try_connect_cases w)
    as [(i & conv & Hcan & _)|(ex & _ & Htry)].
  2: { rewrite Htry in Htrue. by destruct (is_NodeConnectionFailure ex). }
  destruct (can_connect_returns self _ _ _ Hcan)
    as (d0 & _ & Hrp0 & _ & -> & Hvalid & _ & _).
  assert (d0 = d) as -> by congruence.
  destruct (try_connect_after_can_connect self _ _ _ Hcan)
    as (d' & n & entry & Hrp' & Hn & He & Hrun).
  assert (d' = d) as -> by congruence.
  simpl in Hrun. rewrite Hrun in Hs2. cbn [final state] in Hs2.
  eapply (can_connect_not_empty other w2 d
            ({[_connection self]} ∪ entry)); try done.
  - by rewrite Hhit.
  - rewrite Hs2, get_set_entries, Hhit. by apply py_getitem_setitem.
  - intros Hempty.
    assert (_connection self ∈ ({[_connection self]} ∪ entry : gset ConnId))
      as Hin by apply entry_add_elem.
    rewrite Hempty in Hin. by apply not_elem_of_empty in Hin.
Qed.

End Coverage.

(** ** The further properties at concrete scenes *)

Lemma try_connect_all_or_nothing_witness :
  state (final (try_connect (engine node_B 5 T T one empty_registry)
                  (world (input_1_taken 9) dangling_input)))
    = input_1_taken 9 ∧
  connection (final (try_connect (engine node_B 5 T T one empty_registry)
                       (world (input_1_taken 9) dangling_input)))
    = dangling_input.
Proof.
  apply (try_connect_all_or_nothing
           (engine node_B 5 T T one empty_registry)
           (world (input_1_taken 9) dangling_input)).
  vm_compute. discriminate.
Defined.

Lemma can_connect_postcondition_witness :
  hit_index (engine node_B 0 T1 T2 one registry_T1_T2) input = 0 ∧
  type_resolution (engine node_B 0 T1 T2 one registry_T1_T2) input 0
    = answers (0, Some (registered 0)).
Proof.
  destruct (can_connect_postcondition
              (engine node_B 0 T1 T2 one registry_T1_T2)
              (world vacant dangling_input) 0 (Some (registered 0)) eq_refl)
    as (d & Hrp & Hi & _ & _ & _ & Hres).
  injection Hrp as <-. split; [by rewrite <- Hi|exact Hres].
Defined.

Lemma can_connect_unaddressable_hit_witness :
  can_connect (engine node_B 5 T T one empty_registry)
    (world vacant dangling_input)
  = Raises IndexError (world vacant dangling_input) ∧
  try_connect (engine node_B 5 T T one empty_registry)
    (world vacant dangling_input)
  = Raises IndexError (world vacant dangling_input).
Proof.
  apply (can_connect_unaddressable_hit
           (engine node_B 5 T T one empty_registry)
           (world vacant dangling_input) input).
  - reflexivity.
  - discriminate.
  - discriminate.
  - simpl. lia.
Defined.

Lemma try_connect_twice_witness :
  result (try_connect (engine node_B 1 T T one empty_registry)
            (final (try_connect (engine node_B 1 T T one empty_registry)
                      (world vacant dangling_input))))
    = answers false.
Proof.
  rewrite (try_connect_twice (engine node_B 1 T T one empty_registry)
             (world vacant dangling_input) eq_refl).
  reflexivity.
Defined.

Lemma disconnect_try_connect_round_trip_witness :
  result (try_connect (engine node_B 1 T T one empty_registry)
            (final (disconnect (engine node_B 1 T T one empty_registry) input
                      (world (input_1_taken the_connection) bound_both))))
    = answers true ∧
  state (final (try_connect (engine node_B 1 T T one empty_registry)
                  (final (disconnect (engine node_B 1 T T one empty_registry)
                            input
                            (world (input_1_taken the_connection)
                               bound_both)))))
    = input_1_taken the_connection.
Proof.
  destruct (disconnect_try_connect_round_trip
              (engine node_B 1 T T one empty_registry)
              (world (input_1_taken the_connection) bound_both)
              input 1 {[the_connection]} (Some DefaultTypeConverter))
    as (_ & Htrue & Hstate & _).
  - reflexivity.
  - reflexivity.
  - reflexivity.
  - by apply elem_of_singleton.
  - left. apply difference_diag_L.
  - discriminate.
  - reflexivity.
  - discriminate.
  - reflexivity.
  - exact (conj Htrue Hstate).
Defined.

Lemma disconnect_opposite_end_witness :
  result (disconnect (engine node_B 1 T T one empty_registry) output
            (final (try_connect (engine node_B 1 T T one empty_registry)
                      (world vacant dangling_input))))
    = answers PyNone ∧
  result (can_connect (engine node_B 1 T T one empty_registry)
            (final (disconnect (engine node_B 1 T T one empty_registry)
                      output
                      (final (try_connect
                                (engine node_B 1 T T one empty_registry)
                                (world vacant dangling_input))))))
    = fails ConnectionSelfFailure.
Proof.
  destruct (disconnect_opposite_end
              (engine node_B 1 T T one empty_registry)
              (world vacant dangling_input) input)
    as (Hnone & _ & _ & Hself & _).
  - reflexivity.
  - reflexivity.
  - simpl. lia.
  - exact (conj Hnone Hself).
Defined.

Lemma bound_port_rejects_others_witness :
  result (try_connect (engine node_A 2 T T one empty_registry)
            (world vacant dangling_output))
    = answers true ∧
  result (can_connect (engine_of 9 node_A 2 T T one empty_registry)
            (world (output_2_taken the_connection) dangling_output))
    = fails ConnectionPortNotEmptyFailure.
Proof.
  split; [reflexivity|].
  apply (bound_port_rejects_others
           (engine node_A 2 T T one empty_registry)
           (engine_of 9 node_A 2 T T one empty_registry)
           (world vacant dangling_output)
           (world (output_2_taken the_connection) dangling_output) output).
  - reflexivity.
  - reflexivity.
  - vm_compute. reflexivity.
  - reflexivity.
  - discriminate.
  - reflexivity.
  - by intros [_ ?].
Defined.
